(** * MenuBot backend: gateway, response normaliser, validator, dedup filter

    A shallow embedding of [backend/ollama_client.py] and
    [backend/menu_generator.py], and the properties of the response
    normalisation and conversation-state pipeline.

    Modelling conventions.
    - A Python [str] is a [string] of bytes (UTF-8).  [str.lower] and
      [str.strip] are modelled on the ASCII range, where they agree with
      Python; bytes above 127 are left alone.
    - A value produced by [json.loads] is a [json]; a Python [dict] is an
      association list in insertion order with unique keys.
    - A call that may raise returns a [result]; [try]/[except] is a [match]
      on it.
    - The HTTP exchange with the chat endpoint is an input of the model: the
      caller of a gateway function supplies what [session.post] did (the
      reply's content or the exception it raised).
    - The limits of the interpreter that [json.loads] can reach are inputs
      of [json_loads_in] and of the functions named after it. *)

From Stdlib Require Import String Ascii ZArith NArith Bool Lia.
From stdpp Require Import base option list gmap strings.

Local Open Scope string_scope.
Local Open Scope nat_scope.

(** ** Python exceptions and results *)

Inductive exn : Type :=
| Timeout
| ConnectionError
| RecursionError
| AttributeError
| TypeError
| Exception (description : string).

Inductive result (A : Type) : Type :=
| Ok (a : A)
| Raise (e : exn).
Arguments Ok {A} a.
Arguments Raise {A} e.

#[export] Instance result_ret : MRet result := fun _ a => Ok a.

#[export] Instance result_bind : MBind result := fun _ _ k r =>
  match r with
  | Ok a => k a
  | Raise e => Raise e
  end.

(** [str(e)]; only the description of a generic [Exception] matters, the
    texts of the other exceptions stand for whatever the library says. *)
Definition exn_str (e : exn) : string :=
  match e with
  | Timeout => "Read timed out."
  | ConnectionError => "Connection refused"
  | RecursionError => "maximum recursion depth exceeded"
  | AttributeError => "object has no attribute 'lower'"
  | TypeError => "argument is not iterable"
  | Exception d => d
  end.

(** ** Strings *)

Definition dq : string := String (ascii_of_nat 34) EmptyString.

Definition code (c : ascii) : nat := nat_of_ascii c.

Definition is_upper (c : ascii) : bool := (65 <=? code c) && (code c <=? 90).

Definition lower_char (c : ascii) : ascii :=
  if is_upper c then ascii_of_nat (code c + 32) else c.

(** [s.lower()] *)
Fixpoint lower (s : string) : string :=
  match s with
  | EmptyString => EmptyString
  | String c s' => String (lower_char c) (lower s')
  end.

(** [s.startswith(p)] *)
Fixpoint startswith (p s : string) : bool :=
  match p, s with
  | EmptyString, _ => true
  | String a p', String b s' => Ascii.eqb a b && startswith p' s'
  | String _ _, EmptyString => false
  end.

(** [needle in hay] on two strings *)
Fixpoint str_in (needle hay : string) : bool :=
  startswith needle hay ||
  match hay with
  | EmptyString => false
  | String _ hay' => str_in needle hay'
  end.

(** [s[n:]] *)
Fixpoint str_drop (n : nat) (s : string) : string :=
  match n, s with
  | O, _ => s
  | S n', String _ s' => str_drop n' s'
  | S _, EmptyString => EmptyString
  end.

(** [s[:n]] *)
Fixpoint str_take (n : nat) (s : string) : string :=
  match n, s with
  | O, _ => EmptyString
  | S n', String c s' => String c (str_take n' s')
  | S _, EmptyString => EmptyString
  end.

Fixpoint str_rev_onto (s acc : string) : string :=
  match s with
  | EmptyString => acc
  | String c s' => str_rev_onto s' (String c acc)
  end.

Definition str_rev (s : string) : string := str_rev_onto s EmptyString.

(** [c.isspace()] on the ASCII range *)
Definition is_space (c : ascii) : bool :=
  ((9 <=? code c) && (code c <=? 13)) ||
  ((28 <=? code c) && (code c <=? 32)).

Fixpoint lstrip (s : string) : string :=
  match s with
  | EmptyString => EmptyString
  | String c s' => if is_space c then lstrip s' else s
  end.

(** [s.strip()] *)
Definition strip (s : string) : string :=
  str_rev (lstrip (str_rev (lstrip s))).

(** [sep.join(l)] *)
Fixpoint join (sep : string) (l : list string) : string :=
  match l with
  | [] => EmptyString
  | [x] => x
  | x :: l' => x ++ sep ++ join sep l'
  end.

(** Truth value of an [Optional[str]]: [None] and the empty string are
    false. *)
Definition truthy (o : option string) : bool :=
  match o with
  | Some (String _ _) => true
  | _ => false
  end.

(** ** JSON values *)

#[local] Set Warnings "-register-all".

Inductive json : Type :=
| JNull
| JBool (b : bool)
| JInt (n : Z)
| JFloat (lexeme : string)
| JStr (s : string)
| JList (l : list json)
| JDict (d : list (string * json)).

(** A Python [dict] with string keys. *)
Definition dict : Type := list (string * json).

(** [d.get(k)] *)
Fixpoint dict_get (d : dict) (k : string) : option json :=
  match d with
  | [] => None
  | (k', v) :: d' => if String.eqb k k' then Some v else dict_get d' k
  end.

(** [k in d] *)
Definition dict_has (d : dict) (k : string) : bool :=
  match dict_get d k with
  | Some _ => true
  | None => false
  end.

(** [d.get(k, dflt)] *)
Definition dict_get_default (d : dict) (k : string) (dflt : json) : json :=
  match dict_get d k with
  | Some v => v
  | None => dflt
  end.

(** [d[k] = v]: an existing key keeps its position. *)
Fixpoint dict_set (d : dict) (k : string) (v : json) : dict :=
  match d with
  | [] => [(k, v)]
  | (k', v') :: d' =>
      if String.eqb k k' then (k', v) :: d' else (k', v') :: dict_set d' k v
  end.

(** [dict(pairs)] *)
Definition dict_of_pairs (pairs : list (string * json)) : dict :=
  fold_left (fun d kv => dict_set d (fst kv) (snd kv)) pairs [].

(** ** [json.loads]

    The decoder of Python's [json] package with its default settings
    ([strict=True], the constants [NaN], [Infinity] and [-Infinity]
    accepted), as the C scanner implements it.  A float keeps its lexeme.
    The limits of the interpreter (recursion depth, the digit limit of
    [int]) are not reached here: [json_loads_in] below is the decoder under
    them. *)

Inductive scan (A : Type) : Type :=
| Scanned (a : A) (rest : string)
| Invalid
| Exhausted.
Arguments Scanned {A} a rest.
Arguments Invalid {A}.
Arguments Exhausted {A}.

Definition is_ws (c : ascii) : bool :=
  (code c =? 32) || (code c =? 9) || (code c =? 10) || (code c =? 13).

(** [WHITESPACE.match(s, idx).end()] *)
Fixpoint skip_ws (s : string) : string :=
  match s with
  | EmptyString => EmptyString
  | String c s' => if is_ws c then skip_ws s' else s
  end.

Definition is_digit (c : ascii) : bool := (48 <=? code c) && (code c <=? 57).

Definition hex_digit (c : ascii) : option N :=
  let n := code c in
  if (48 <=? n) && (n <=? 57) then Some (N.of_nat (n - 48))
  else if (97 <=? n) && (n <=? 102) then Some (N.of_nat (n - 87))
  else if (65 <=? n) && (n <=? 70) then Some (N.of_nat (n - 55))
  else None.

Definition hex4 (a b c d : ascii) : option N :=
  match hex_digit a, hex_digit b, hex_digit c, hex_digit d with
  | Some x, Some y, Some z, Some w => Some (((x * 16 + y) * 16 + z) * 16 + w)%N
  | _, _, _, _ => None
  end.

Definition byte (n : N) : ascii := ascii_of_N n.

(** The bytes of [chr(cp)] in UTF-8 (a lone surrogate is written with the
    three-byte pattern). *)
Definition utf8 (cp : N) : list ascii :=
  if (cp <? 128)%N then [byte cp]
  else if (cp <? 2048)%N then
    [byte (192 + cp / 64); byte (128 + cp mod 64)]
  else if (cp <? 65536)%N then
    [byte (224 + cp / 4096); byte (128 + (cp / 64) mod 64);
     byte (128 + cp mod 64)]
  else
    [byte (240 + cp / 262144); byte (128 + (cp / 4096) mod 64);
     byte (128 + (cp / 64) mod 64); byte (128 + cp mod 64)].

Definition is_high_surrogate (cp : N) : bool :=
  ((55296 <=? cp) && (cp <=? 56319))%N.

Definition is_low_surrogate (cp : N) : bool :=
  ((56320 <=? cp) && (cp <=? 57343))%N.

Definition join_surrogates (hi lo : N) : N :=
  (65536 + ((hi - 55296) * 1024 + (lo - 56320)))%N.

(** The character a one-letter escape stands for. *)
Definition simple_escape (c : ascii) : option ascii :=
  let n := code c in
  if (n =? 34) || (n =? 92) || (n =? 47) then Some c
  else if n =? 98 then Some (ascii_of_nat 8)
  else if n =? 102 then Some (ascii_of_nat 12)
  else if n =? 110 then Some (ascii_of_nat 10)
  else if n =? 114 then Some (ascii_of_nat 13)
  else if n =? 116 then Some (ascii_of_nat 9)
  else None.

Fixpoint push_rev (l : list ascii) (acc : string) : string :=
  match l with
  | [] => acc
  | c :: l' => push_rev l' (String c acc)
  end.

(** [scanstring(s, end, strict=True)]: [s] starts after the opening quote,
    [acc] holds the decoded characters so far, last one first. *)
Fixpoint scanstring (s : string) (acc : string) {struct s} : scan string :=
  match s with
  | EmptyString => Invalid
  | String c s1 =>
      if code c =? 34 then Scanned (str_rev acc) s1
      else if code c =? 92 then
        match s1 with
        | EmptyString => Invalid
        | String e s2 =>
            if code e =? 117 then
              match s2 with
              | String h1 (String h2 (String h3 (String h4 s6))) =>
                  match hex4 h1 h2 h3 h4 with
                  | None => Invalid
                  | Some uni =>
                      if is_high_surrogate uni then
                        match s6 with
                        | String b (String u (String l1 (String l2
                            (String l3 (String l4 s12))))) =>
                            if (code b =? 92) && (code u =? 117) then
                              match hex4 l1 l2 l3 l4 with
                              | None => Invalid
                              | Some uni2 =>
                                  if is_low_surrogate uni2 then
                                    scanstring s12
                                      (push_rev (utf8 (join_surrogates uni uni2)) acc)
                                  else scanstring s6 (push_rev (utf8 uni) acc)
                              end
                            else scanstring s6 (push_rev (utf8 uni) acc)
                        | _ => scanstring s6 (push_rev (utf8 uni) acc)
                        end
                      else scanstring s6 (push_rev (utf8 uni) acc)
                  end
              | _ => Invalid
              end
            else
              match simple_escape e with
              | Some ch => scanstring s2 (String ch acc)
              | None => Invalid
              end
        end
      else if code c <? 32 then Invalid
      else scanstring s1 (String c acc)
  end.

(** The longest prefix of digits, and what follows it. *)
Fixpoint span_digits (s : string) : string * string :=
  match s with
  | EmptyString => (EmptyString, EmptyString)
  | String c s' =>
      if is_digit c then
        let '(ds, rest) := span_digits s' in (String c ds, rest)
      else (EmptyString, s)
  end.

Fixpoint digits_value (ds : string) (acc : Z) : Z :=
  match ds with
  | EmptyString => acc
  | String c ds' => digits_value ds' (10 * acc + Z.of_nat (code c - 48))%Z
  end.

(** The integer part, an optional minus sign and then 0 or a run of digits
    that does not start with 0: its sign, digits and rest. *)
Definition match_integer (s : string) : option (bool * string * string) :=
  let '(neg, s1) :=
    match s with
    | String c s' => if code c =? 45 then (true, s') else (false, s)
    | EmptyString => (false, s)
    end in
  match s1 with
  | String c s2 =>
      if code c =? 48 then Some (neg, String c EmptyString, s2)
      else if is_digit c then
        let '(ds, rest) := span_digits s1 in Some (neg, ds, rest)
      else None
  | EmptyString => None
  end.

(** The optional fraction [(\.[0-9]+)?]. *)
Definition match_frac (s : string) : string * string :=
  match s with
  | String c s1 =>
      if code c =? 46 then
        match span_digits s1 with
        | (String d ds, rest) => (String c (String d ds), rest)
        | (EmptyString, _) => (EmptyString, s)
        end
      else (EmptyString, s)
  | EmptyString => (EmptyString, s)
  end.

(** The optional exponent [([eE][-+]?[0-9]+)?]. *)
Definition match_exp (s : string) : string * string :=
  match s with
  | String c s1 =>
      if (code c =? 101) || (code c =? 69) then
        let '(sign, s2) :=
          match s1 with
          | String g s' =>
              if (code g =? 45) || (code g =? 43)
              then (String g EmptyString, s') else (EmptyString, s1)
          | EmptyString => (EmptyString, s1)
          end in
        match span_digits s2 with
        | (String d ds, rest) => (String c (sign ++ String d ds), rest)
        | (EmptyString, _) => (EmptyString, s)
        end
      else (EmptyString, s)
  | EmptyString => (EmptyString, s)
  end.

(** [NUMBER_RE.match]: an [int] when neither fraction nor exponent is there,
    a [float] otherwise. *)
Definition match_number (s : string) : scan json :=
  match match_integer s with
  | None => Invalid
  | Some (neg, ds, s1) =>
      let '(frac, s2) := match_frac s1 in
      let '(exp, s3) := match_exp s2 in
      match frac, exp with
      | EmptyString, EmptyString =>
          let v := digits_value ds 0%Z in
          Scanned (JInt (if neg then (- v)%Z else v)) s3
      | _, _ =>
          Scanned (JFloat ((if neg then "-" else EmptyString) ++ ds ++ frac ++ exp)) s3
      end
  end.

(** A constant of the grammar at the head of [s]. *)
Definition match_constant (s : string) : option (json * string) :=
  if startswith "null" s then Some (JNull, str_drop 4 s)
  else if startswith "true" s then Some (JBool true, str_drop 4 s)
  else if startswith "false" s then Some (JBool false, str_drop 5 s)
  else if startswith "NaN" s then Some (JFloat "NaN", str_drop 3 s)
  else if startswith "Infinity" s then Some (JFloat "Infinity", str_drop 8 s)
  else if startswith "-Infinity" s then Some (JFloat "-Infinity", str_drop 9 s)
  else None.

(** [scan_once], [JSONArray] and [JSONObject].  [fuel] bounds the number of
    nested calls; [json_loads] gives enough of it. *)
Fixpoint scan_once (fuel : nat) (s : string) {struct fuel} : scan json :=
  match fuel with
  | O => Exhausted
  | S fuel' =>
      match s with
      | EmptyString => Invalid
      | String c s1 =>
          if code c =? 34 then
            match scanstring s1 EmptyString with
            | Scanned str rest => Scanned (JStr str) rest
            | Invalid => Invalid
            | Exhausted => Exhausted
            end
          else if code c =? 123 then
            match skip_ws s1 with
            | EmptyString => Invalid
            | String c2 s2 =>
                if code c2 =? 125 then Scanned (JDict []) s2
                else if code c2 =? 34 then object_members fuel' s2 []
                else Invalid
            end
          else if code c =? 91 then
            match skip_ws s1 with
            | EmptyString => Invalid
            | String c2 s2 =>
                if code c2 =? 93 then Scanned (JList []) s2
                else array_items fuel' (String c2 s2) []
            end
          else
            match match_constant s with
            | Some (v, rest) => Scanned v rest
            | None => match_number s
            end
      end
  end

(** The loop of [JSONArray]: [s] is at the next value, [acc] holds the values
    read so far, last one first. *)
with array_items (fuel : nat) (s : string) (acc : list json) {struct fuel}
    : scan json :=
  match fuel with
  | O => Exhausted
  | S fuel' =>
      match scan_once fuel' s with
      | Scanned v rest =>
          match skip_ws rest with
          | EmptyString => Invalid
          | String c r =>
              if code c =? 93 then Scanned (JList (rev (v :: acc))) r
              else if code c =? 44 then array_items fuel' (skip_ws r) (v :: acc)
              else Invalid
          end
      | Invalid => Invalid
      | Exhausted => Exhausted
      end
  end

(** The loop of [JSONObject]: [s] is after the opening quote of the next key,
    [acc] holds the pairs read so far, last one first. *)
with object_members (fuel : nat) (s : string) (acc : list (string * json))
    {struct fuel} : scan json :=
  match fuel with
  | O => Exhausted
  | S fuel' =>
      match scanstring s EmptyString with
      | Scanned key rest =>
          match skip_ws rest with
          | EmptyString => Invalid
          | String c r =>
              if code c =? 58 then
                match scan_once fuel' (skip_ws r) with
                | Scanned v rest2 =>
                    match skip_ws rest2 with
                    | EmptyString => Invalid
                    | String c2 r2 =>
                        if code c2 =? 125 then
                          Scanned (JDict (dict_of_pairs (rev ((key, v) :: acc)))) r2
                        else if code c2 =? 44 then
                          match skip_ws r2 with
                          | EmptyString => Invalid
                          | String c3 r3 =>
                              if code c3 =? 34
                              then object_members fuel' r3 ((key, v) :: acc)
                              else Invalid
                          end
                        else Invalid
                    end
                | Invalid => Invalid
                | Exhausted => Exhausted
                end
              else Invalid
          end
      | Invalid => Invalid
      | Exhausted => Exhausted
      end
  end.

(** What [json.loads(s)] does: a value, [json.JSONDecodeError], or the
    model's fuel ran out (which [json_loads_fuel] excludes). *)
Inductive loaded : Type :=
| Parsed (v : json)
| JSONDecodeError
| OutOfFuel.

(** The byte order mark U+FEFF in UTF-8. *)
Definition bom : string :=
  String (ascii_of_nat 239) (String (ascii_of_nat 187)
    (String (ascii_of_nat 191) EmptyString)).

Definition json_loads (s : string) : loaded :=
  if startswith bom s then JSONDecodeError
  else
    match scan_once (2 * String.length s + 2) (skip_ws s) with
    | Scanned v rest =>
        match skip_ws rest with
        | EmptyString => Parsed v
        | String _ _ => JSONDecodeError
        end
    | Invalid => JSONDecodeError
    | Exhausted => OutOfFuel
    end.

(** ** [re.search(r'\{.*\}', text, re.DOTALL)]

    The leftmost match starts at the first opening brace that has a closing
    brace after it; the greedy body then runs to the last closing brace of
    the text.  No opening brace does better than the first one. *)

(** The suffix of [s] that starts at the first [c]. *)
Fixpoint from_first (c : ascii) (s : string) : option string :=
  match s with
  | EmptyString => None
  | String a s' => if Ascii.eqb a c then Some s else from_first c s'
  end.

(** The prefix of [s] that ends at the last [c]. *)
Fixpoint upto_last (c : ascii) (s : string) : option string :=
  match s with
  | EmptyString => None
  | String a s' =>
      match upto_last c s' with
      | Some p => Some (String a p)
      | None => if Ascii.eqb a c then Some (String a EmptyString) else None
      end
  end.

Definition lbrace : ascii := ascii_of_nat 123.
Definition rbrace : ascii := ascii_of_nat 125.

(** [json_match.group()], or [None] when the pattern is not found. *)
Definition re_search_braces (text : string) : option string :=
  match from_first lbrace text with
  | Some (String b body) =>
      match upto_last rbrace body with
      | Some p => Some (String b p)
      | None => None
      end
  | _ => None
  end.

(** ** The gateway: [OllamaClient] *)

Record message : Type := { role : string; content : string }.

Record OllamaClient : Type := {
  current_model : string;
  conversation_history : gmap string (list message)
}.

(** [OllamaClient()] *)
Definition new_client : OllamaClient :=
  {| current_model := "danielsheep/Qwen3-Coder-30B-A3B-Instruct-1M-Unsloth";
     conversation_history := ∅ |}.

Definition set_model (self : OllamaClient) (model_name : string) : OllamaClient :=
  {| current_model := model_name;
     conversation_history := conversation_history self |}.

(** The list stored under a session is mutated in place by the callers of
    [get_or_create_conversation]: [store] writes the mutated list back. *)
Definition store (self : OllamaClient) (session_id : string)
    (messages : list message) : OllamaClient :=
  {| current_model := current_model self;
     conversation_history := <[session_id := messages]> (conversation_history self) |}.

Definition get_or_create_conversation (self : OllamaClient) (session_id : string)
    : list message * OllamaClient :=
  match conversation_history self !! session_id with
  | Some messages => (messages, self)
  | None => ([], store self session_id [])
  end.

Definition clear_conversation (self : OllamaClient) (session_id : string)
    : OllamaClient :=
  {| current_model := current_model self;
     conversation_history := delete session_id (conversation_history self) |}.

(** [not messages or messages[0]["role"] != "system"] *)
Definition lacks_system (messages : list message) : bool :=
  match messages with
  | [] => true
  | m :: _ => negb (String.eqb (role m) "system")
  end.

(** What [self.session.post(...)], [raise_for_status] and reading
    the content of the reply's message come to: the content of
    the reply, or the exception one of them raised. *)
Definition exchange : Type := result string.

Definition timeout_sentinel : string :=
  "Error: Request timed out. Try using a smaller model.".
Definition connection_sentinel : string :=
  "Error: Cannot connect to Ollama. Make sure it's running.".

(** [generate_response(prompt, model, system_prompt, temperature,
    max_tokens, session_id)]; [model], [temperature] and [max_tokens] only go
    into the payload.  Every exception is caught, so the call returns [Ok]. *)
Definition generate_response (self : OllamaClient) (prompt : string)
    (system_prompt : option string) (session_id : string) (net : exchange)
    : result string * OllamaClient :=
  let '(messages, self) := get_or_create_conversation self session_id in
  let messages :=
    if truthy system_prompt && lacks_system messages
    then {| role := "system"; content := default EmptyString system_prompt |}
         :: messages
    else messages in
  let messages := (messages ++ [{| role := "user"; content := prompt |}])%list in
  match net with
  | Ok reply =>
      let assistant_response := strip reply in
      (Ok assistant_response,
       store self session_id
         (messages ++ [{| role := "assistant"; content := assistant_response |}])%list)
  | Raise Timeout => (Ok timeout_sentinel, store self session_id messages)
  | Raise ConnectionError => (Ok connection_sentinel, store self session_id messages)
  | Raise e => (Ok ("Error: " ++ exn_str e), store self session_id messages)
  end.

Definition json_system_base : string :=
  "You are an AI assistant that responds only in valid JSON format. Do not include any text outside the JSON structure.".

Definition parse_failure (response_text : string) : json :=
  JDict [("error", JStr "Failed to parse JSON response");
         ("raw_response", JStr response_text)].

(** The [try] block that ends [generate_json_response]: the direct parse,
    then the parse of the brace-delimited match, then the error value.  Only
    [json.JSONDecodeError] is caught. *)
Definition extract_json (response_text : string) : result json :=
  match json_loads response_text with
  | Parsed v => Ok v
  | OutOfFuel => Raise RecursionError
  | JSONDecodeError =>
      match re_search_braces response_text with
      | Some group =>
          match json_loads group with
          | Parsed v => Ok v
          | OutOfFuel => Raise RecursionError
          | JSONDecodeError => Ok (parse_failure response_text)
          end
      | None => Ok (parse_failure response_text)
      end
  end.

Definition generate_json_response (self : OllamaClient) (prompt : string)
    (system_prompt : option string) (session_id : string) (net : exchange)
    : result json * OllamaClient :=
  let json_system :=
    if truthy system_prompt
    then json_system_base ++ " " ++ default EmptyString system_prompt
    else json_system_base in
  let '(r, self) := generate_response self prompt (Some json_system) session_id net in
  (response_text ← r; extract_json response_text, self).

(** ** The menu generator: [MenuGenerator]

    [self.ollama] is the only field, so [self] is the [OllamaClient].  A menu
    item is a [dict]. *)

Definition item (title prompt : string) (tools : list string) (alt icon : string)
    : dict :=
  [("title", JStr title); ("prompt", JStr prompt);
   ("tools", JList (map JStr tools)); ("alt", JStr alt); ("icon", JStr icon)].

(** *** [_validate_menu_items] *)

Definition validated_item (d : dict) : dict :=
  [("title", dict_get_default d "title" (JStr "Unknown Action"));
   ("prompt", dict_get_default d "prompt" (JStr "Execute this action"));
   ("tools", dict_get_default d "tools" (JList []));
   ("alt", dict_get_default d "alt" (dict_get_default d "title" (JStr "Action")));
   ("icon", dict_get_default d "icon" (JStr "📋"))].

(** [isinstance(item, dict) and "title" in item] *)
Definition has_title (candidate : json) : bool :=
  match candidate with
  | JDict d => dict_has d "title"
  | _ => false
  end.

Fixpoint _validate_menu_items (items : list json) : list dict :=
  match items with
  | [] => []
  | JDict d :: rest =>
      if dict_has d "title"
      then validated_item d :: _validate_menu_items rest
      else _validate_menu_items rest
  | _ :: rest => _validate_menu_items rest
  end.

(** *** [_get_progression_actions] *)

Definition progression_actions : list dict :=
  [item "Next Phase"
        "Move to the next phase of this workflow based on completed work"
        ["planning"] "Advance to the next stage" "➡️";
   item "Deep Dive"
        "Explore the most promising aspect from previous work in greater detail"
        ["analysis"] "Go deeper on key findings" "🔍";
   item "Create Deliverable"
        "Generate a concrete output based on the work completed so far"
        ["creation"] "Produce tangible results" "📄"].

(** The lower-cased title of an item: the [get] of the key [title] with the
    empty string as default, then [lower()], which a value that is not a
    string does not have.  For the catalogue items, whose title key is always
    there, this is also [action["title"].lower()]. *)
Definition title_lower (action : dict) : result string :=
  match dict_get_default action "title" (JStr EmptyString) with
  | JStr title => Ok (lower title)
  | _ => Raise AttributeError
  end.

(** [any(action["title"].lower() in completed.lower() for completed in
    completed_actions)]; the titles of the catalogue are strings, so the
    last branch is not taken. *)
Definition in_completed (action : dict) (completed_actions : list string) : bool :=
  match title_lower action with
  | Ok t => existsb (fun completed => str_in t (lower completed)) completed_actions
  | Raise _ => false
  end.

Definition _get_progression_actions (completed_actions : list string) : list dict :=
  List.filter (fun action => negb (in_completed action completed_actions))
    progression_actions.

(** *** [_filter_completed_actions] *)

Definition duplicate_keywords : list (string * string) :=
  [("research", "research"); ("analyze", "analyz");
   ("identify", "identif"); ("develop", "develop");
   ("create", "creat"); ("design", "design")].

(** One turn of the inner loop: does [completed] make the item a
    duplicate? *)
Definition matches_completed (item_title completed : string) : bool :=
  let completed_lower := lower completed in
  String.eqb item_title completed_lower
  || str_in item_title completed_lower
  || str_in completed_lower item_title
  || existsb (fun kw => str_in (fst kw) item_title && str_in (snd kw) completed_lower)
       duplicate_keywords.

(** The inner loop; it stops at the first match. *)
Definition is_duplicate (item_title : string) (completed_actions : list string)
    : bool :=
  existsb (matches_completed item_title) completed_actions.

(** The outer loop: lower-casing the item's title raises when the title is
    not a string. *)
Fixpoint keep_new (menu_items : list dict) (completed_actions : list string)
    : result (list dict) :=
  match menu_items with
  | [] => Ok []
  | it :: rest =>
      item_title ← title_lower it;
      filtered_items ← keep_new rest completed_actions;
      Ok (if is_duplicate item_title completed_actions
          then filtered_items
          else it :: filtered_items)
  end.

Definition _filter_completed_actions (menu_items : list dict)
    (completed_actions : list string) : result (list dict) :=
  match completed_actions with
  | [] => Ok menu_items
  | _ :: _ =>
      filtered_items ← keep_new menu_items completed_actions;
      let filtered_items :=
        if length filtered_items <? 2
        then (filtered_items ++ _get_progression_actions completed_actions)%list
        else filtered_items in
      Ok (take 5 filtered_items)
  end.

(** *** [_generate_fallback_menu] *)

Definition base_actions (role context : string) : list dict :=
  [item "Analyze Current State"
        ("Analyze the current situation for a " ++ role ++ ": " ++ context)
        ["analysis"] "Evaluate the present situation" "🔍";
   item "Strategic Planning"
        ("Create a strategic plan for a " ++ role ++ " dealing with: " ++ context)
        ["planning"] "Develop strategic approach" "📋";
   item "Research Options"
        ("Research available options for a " ++ role ++ " in this context: " ++ context)
        ["research"] "Investigate possibilities" "📚";
   item "Create Deliverable"
        ("Generate a concrete deliverable for a " ++ role ++ " on: " ++ context)
        ["creation"] "Produce tangible output" "📄";
   item "Next Steps"
        ("Determine next steps for a " ++ role ++ " regarding: " ++ context)
        ["planning"] "Identify immediate actions" "➡️"].

Definition _generate_fallback_menu (role context : string)
    (completed_actions : list string) : result (list dict) :=
  _filter_completed_actions (base_actions role context) completed_actions.

(** *** [generate_menu] *)

Definition menu_system_prompt (role : string) : string :=
  "You are MenuBot, a workflow assistant specializing in " ++ role ++ " tasks.

LOCATION CONTEXT: You are operating in the UK/British market. Use British English, GBP currency, UK demographics, British cultural references, and UK business practices. Avoid US-centric assumptions.

Your job is to generate 3-5 practical next actions based on the SPECIFIC CONTENT of the current node, not generic actions.

CRITICAL RULES:
1. Read the current node's content carefully and build on what it contains
2. NEVER suggest actions that have already been completed (listed in completed_actions)
3. Generate actions that logically follow from the current node's specific results
4. Focus on advancing the workflow, not repeating previous work

Return ONLY a JSON array in this exact format:
[
  {
    " ++ dq ++ "title" ++ dq ++ ": " ++ dq ++ "Action Title" ++ dq ++ ",
    " ++ dq ++ "prompt" ++ dq ++ ": " ++ dq ++ "Detailed prompt for executing this action based on current node content" ++ dq ++ ",
    " ++ dq ++ "tools" ++ dq ++ ": [" ++ dq ++ "tool1" ++ dq ++ ", " ++ dq ++ "tool2" ++ dq ++ "],
    " ++ dq ++ "alt" ++ dq ++ ": " ++ dq ++ "Alternative description" ++ dq ++ ",
    " ++ dq ++ "icon" ++ dq ++ ": " ++ dq ++ "📋" ++ dq ++ "
  }
]

Generate actions that:
- Build directly on the current node's specific content
- Advance the workflow to the next logical phase
- Are contextually relevant to what was just discovered/created
- Avoid repeating any completed actions".

Definition menu_user_prompt (role context current_node_content node_title : string)
    (completed_actions : list string) : string :=
  if negb (String.eqb current_node_content EmptyString)
     && (50 <? String.length current_node_content)
  then
    "Current Node: " ++ dq ++ node_title ++ dq ++ "
Current Node Content: " ++ str_take 1000 current_node_content ++ "...

Role: " ++ role ++ "
Overall Context: " ++ context ++ "

Already Completed Actions (DO NOT repeat these): " ++ join ", " completed_actions ++ "

Based on the SPECIFIC CONTENT of the current node above, generate 3-5 logical next actions that build on what this node contains. Focus on what the current node discovered or created, and suggest actions that advance from these specific findings."
  else
    "Role: " ++ role ++ "
Context: " ++ context ++ "
Current Situation: " ++ node_title ++ "

Already Completed Actions (DO NOT repeat these): " ++ join ", " completed_actions ++ "

Generate 3-5 logical next actions to begin or advance this workflow. Avoid repeating any completed actions.".

(** ["error" in response] *)
Definition contains_error (response : json) : result bool :=
  match response with
  | JDict d => Ok (dict_has d "error")
  | JList l =>
      Ok (existsb (fun x => match x with
                            | JStr s => String.eqb s "error"
                            | _ => false
                            end) l)
  | JStr s => Ok (str_in "error" s)
  | _ => Raise TypeError
  end.

(** The body of the [try] after the gateway call. *)
Definition menu_of_response (role context : string)
    (completed_actions : list string) (response : json) : result (list dict) :=
  has_error ← contains_error response;
  if has_error : bool then _generate_fallback_menu role context completed_actions
  else
    match response with
    | JList l =>
        _filter_completed_actions (_validate_menu_items l) completed_actions
    | _ => _generate_fallback_menu role context completed_actions
    end.

(** [generate_menu(role, context, current_node_content, node_title,
    completed_actions=...)]; the other parameters are not used.  The gateway
    call goes to the default session. *)
Definition generate_menu (self : OllamaClient)
    (role context current_node_content node_title : string)
    (completed_actions : list string) (net : exchange)
    : result (list dict) * OllamaClient :=
  let system_prompt := menu_system_prompt role in
  let user_prompt :=
    menu_user_prompt role context current_node_content node_title
      completed_actions in
  let '(r, self) :=
    generate_json_response self user_prompt (Some system_prompt) "default" net in
  (match response ← r; menu_of_response role context completed_actions response with
   | Ok menu => Ok menu
   | Raise _ => _generate_fallback_menu role context completed_actions
   end, self).

(** *** [_generate_next_actions] and [execute_action] *)

Definition next_actions_system_prompt : string :=
  "Generate 3 logical next action titles based on the previous result. 
        Return only a JSON array of strings. Each string should be 2-4 words describing an action.
        
        Example: [" ++ dq ++ "Review Results" ++ dq ++ ", " ++ dq ++ "Share Findings" ++ dq ++ ", " ++ dq ++ "Plan Implementation" ++ dq ++ "]".

Definition next_actions_user_prompt (role previous_result : string) : string :=
  "Role: " ++ role ++ "
Previous result: " ++ str_take 500 previous_result ++ "...

What are 3 logical next actions that build on these results?".

Definition default_next_actions : list json :=
  [JStr "Review Results"; JStr "Continue Planning"; JStr "Next Phase"].

(** The bare [except] catches whatever the structured call raises. *)
Definition _generate_next_actions (self : OllamaClient)
    (role previous_result : string) (net : exchange)
    : list json * OllamaClient :=
  let '(r, self) :=
    generate_json_response self (next_actions_user_prompt role previous_result)
      (Some next_actions_system_prompt) "default" net in
  (match r with
   | Ok (JList l) => take 3 l
   | Ok _ => default_next_actions
   | Raise _ => default_next_actions
   end, self).

(** The dict [execute_action] returns. *)
Record ExecutionResult : Type := {
  result_content : string;
  next_actions : list json;
  executed_at : string;
  model_used : string
}.

(** [context.get(key, dflt)] on the request's context, a dict of strings. *)
Fixpoint context_get (context : list (string * string)) (key dflt : string)
    : string :=
  match context with
  | [] => dflt
  | (k, v) :: context' =>
      if String.eqb key k then v else context_get context' key dflt
  end.

Definition execute_system_prompt (role parent_content : string) : string :=
  let previous :=
    if String.eqb parent_content EmptyString
    then "No previous context" else str_take 500 parent_content in
  "You are an AI assistant specializing in " ++ role ++ " tasks in the UK market.

Use British English, GBP currency, UK demographics and business practices. Avoid US-centric references.

Execute the requested action thoroughly and professionally, building on previous work.

Previous Context: " ++ previous ++ "

Provide:
1. Detailed results of the action
2. Key insights or findings
3. Specific next steps
4. Any relevant data or recommendations

Be practical, actionable, and build logically on any previous work mentioned.".

Definition execute_user_prompt (action_prompt previous_context user_input : string)
    : string :=
  "Action to execute: " ++ action_prompt ++ "

Overall Context: " ++ previous_context ++ "

User input: " ++ user_input ++ "

Please execute this action and provide comprehensive results that build on any previous work.".

(** [execute_action(action_id, context, user_input)]: [net] is the exchange
    of the primary call, [net2] that of the call for the next actions. *)
Definition execute_action (self : OllamaClient) (action_id : string)
    (context : list (string * string)) (user_input : string)
    (net net2 : exchange) : ExecutionResult * OllamaClient :=
  let action_prompt := context_get context "action_prompt" EmptyString in
  let role := context_get context "role" "General User" in
  let previous_context := context_get context "context" EmptyString in
  let parent_content := context_get context "parent_content" EmptyString in
  let system_prompt := execute_system_prompt role parent_content in
  let user_prompt := execute_user_prompt action_prompt previous_context user_input in
  let '(r, self) :=
    generate_response self user_prompt (Some system_prompt) "default" net in
  match r with
  | Ok result =>
      let '(next_actions, self) := _generate_next_actions self role result net2 in
      ({| result_content := result;
          next_actions := next_actions;
          executed_at := "now";
          model_used := current_model self |}, self)
  | Raise e =>
      ({| result_content := "Error executing action: " ++ exn_str e;
          next_actions := [];
          executed_at := "now";
          model_used := "error" |}, self)
  end.

(** ** The gateway: summary of a session, listing of the models *)

(** The dict [get_conversation_summary] returns. *)
Record ConversationSummary : Type := {
  summary_session_id : string;
  message_count : nat;
  has_system_prompt : bool;
  last_user_message : option string;
  last_assistant_message : option string
}.

(** A byte that continues a character of more than one byte in UTF-8. *)
Definition is_continuation (c : ascii) : bool :=
  (128 <=? code c) && (code c <? 192).

(** [s[:n]]: the first [n] characters of [s], each with all its bytes. *)
Fixpoint first_chars (n : nat) (s : string) : string :=
  match s with
  | EmptyString => EmptyString
  | String c s' =>
      if is_continuation c then String c (first_chars n s')
      else
        match n with
        | O => EmptyString
        | S n' => String c (first_chars n' s')
        end
  end.

(** [next((msg["content"][:100] + "..." for msg in reversed(messages)
    if msg["role"] == r), None)] *)
Definition last_with_role (r : string) (messages : list message) : option string :=
  match List.find (fun msg => String.eqb (role msg) r) (rev messages) with
  | Some msg => Some (first_chars 100 (content msg) ++ "...")
  | None => None
  end.

(** [get_conversation_summary(session_id)]: it goes through
    [get_or_create_conversation], so it changes the client when the session
    is not there yet. *)
Definition get_conversation_summary (self : OllamaClient) (session_id : string)
    : ConversationSummary * OllamaClient :=
  let '(messages, self) := get_or_create_conversation self session_id in
  ({| summary_session_id := session_id;
      message_count := length messages;
      has_system_prompt :=
        (0 <? length messages) &&
        match messages with
        | m :: _ => String.eqb (role m) "system"
        | [] => false
        end;
      last_user_message := last_with_role "user" messages;
      last_assistant_message := last_with_role "assistant" messages |}, self).

(** What [self.session.get(...)], [raise_for_status] and [response.json()]
    come to in [list_models]: the decoded body, or the exception one of them
    raised. *)
Definition listing : Type := result json.

(** [for model in v]: a list gives its elements, a dict its keys, a string
    its characters (each a string again, which is all that matters here);
    nothing else can be iterated. *)
Definition iterate (v : json) : result (list json) :=
  match v with
  | JList l => Ok l
  | JDict d => Ok (map (fun kv => JStr (fst kv)) d)
  | JStr s => Ok (map (fun c => JStr (String c EmptyString)) (list_ascii_of_string s))
  | _ => Raise TypeError
  end.

(** The body of the loop of [list_models]: [model["name"]] raises a
    [KeyError] (written as the [Exception] with its text) on a dict without
    the key and a [TypeError] on what is not a dict. *)
Definition model_entry (model : json) : result dict :=
  match model with
  | JDict m =>
      match dict_get m "name" with
      | Some name =>
          Ok [("name", name);
              ("size", dict_get_default m "size" (JInt 0));
              ("modified_at", dict_get_default m "modified_at" (JStr EmptyString))]
      | None => Raise (Exception "'name'")
      end
  | _ => Raise TypeError
  end.

(** The loop of [list_models]. *)
Fixpoint model_entries (models : list json) : result (list dict) :=
  match models with
  | [] => Ok []
  | model :: rest =>
      entry ← model_entry model;
      entries ← model_entries rest;
      Ok (entry :: entries)
  end.

(** [data.get("models", [])] on the decoded body. *)
Definition models_of (data : json) : result json :=
  match data with
  | JDict d => Ok (dict_get_default d "models" (JList []))
  | _ => Raise AttributeError
  end.

(** [list_models()]: any exception gives the empty list. *)
Definition list_models (net : listing) : list dict :=
  match (data ← net; v ← models_of data; models ← iterate v;
         model_entries models) with
  | Ok models => models
  | Raise _ => []
  end.

(** [model["name"] == model_name] *)
Definition named (model_name : string) (model : dict) : bool :=
  match dict_get model "name" with
  | Some (JStr s) => String.eqb s model_name
  | _ => false
  end.

(** [is_model_available(model_name)].  [asyncio.run] raises a [RuntimeError]
    when an event loop is already running in the thread, and the bare
    [except] turns that into [False]. *)
Definition is_model_available (loop_running : bool) (model_name : string)
    (net : listing) : bool :=
  if loop_running then false
  else existsb (named model_name) (list_models net).

(** ** The route [/api/generate-menu] of [main.py]

    [body] is what [await request.json()] came to: the decoded body of the
    request, or the exception it raised.  Everything happens inside the
    [try] of the route, whose [except Exception] answers with an
    [HTTPException] of status 500: a [Raise] stands for it, with its
    detail.

    [previous_actions] and [current_node_data] are passed to
    [generate_menu] under names it does not read, so its
    [completed_actions], [node_title] and [current_node_content] keep their
    defaults. *)

(** [type(v).__name__] *)
Definition type_name (v : json) : string :=
  match v with
  | JNull => "NoneType"
  | JBool _ => "bool"
  | JInt _ => "int"
  | JFloat _ => "float"
  | JStr _ => "str"
  | JList _ => "list"
  | JDict _ => "dict"
  end.

(** The text an f-string puts for [v].  For a string it is the string; the
    text of any other value is left to [py_str], which stands for [str]. *)
Definition formatted (py_str : json -> string) (v : json) : string :=
  match v with
  | JStr s => s
  | _ => py_str v
  end.

Definition http_500 (description : string) : exn :=
  Exception ("Menu generation failed: " ++ description).

Definition api_generate_menu (py_str : json -> string) (self : OllamaClient)
    (body : result json) (net : exchange) : result (list dict) * OllamaClient :=
  match body with
  | Raise e => (Raise (http_500 (exn_str e)), self)
  | Ok (JDict data) =>
      let role := dict_get_default data "role" (JStr "General User") in
      let context := dict_get_default data "context" (JStr EmptyString) in
      let '(r, self) :=
        generate_menu self (formatted py_str role) (formatted py_str context)
          EmptyString EmptyString [] net in
      (match r with
       | Ok menu_items => Ok menu_items
       | Raise e => Raise (http_500 (exn_str e))
       end, self)
  | Ok v =>
      (Raise (http_500 ("'" ++ type_name v ++ "' object has no attribute 'get'")),
       self)
  end.

(** ** The configuration: [MenuBotConfig] of [settings.py]

    [self.config] is a [dict].  Writing the file is an input of the model:
    the caller of [set] supplies what [save_config] returned. *)

(** [path.split('.')]: the pieces between the dots, at least one. *)
Fixpoint split_dots (path : string) : list string :=
  match path with
  | EmptyString => [EmptyString]
  | String c rest =>
      if code c =? 46 then EmptyString :: split_dots rest
      else
        match split_dots rest with
        | piece :: pieces => String c piece :: pieces
        | [] => [String c EmptyString]
        end
  end.

(** The loop of [get]: [value = value[key]] for each key; [None] stands for
    the [KeyError] of a dict without the key and the [TypeError] of a value
    that is not a dict. *)
Fixpoint lookup_keys (value : json) (keys : list string) : option json :=
  match keys with
  | [] => Some value
  | key :: rest =>
      match value with
      | JDict d =>
          match dict_get d key with
          | Some v => lookup_keys v rest
          | None => None
          end
      | _ => None
      end
  end.

(** [get(path, default)] *)
Definition config_get (config : dict) (path : string) (dflt : json) : json :=
  match lookup_keys (JDict config) (split_dots path) with
  | Some v => v
  | None => dflt
  end.

(** [_merge_config(default, user)]: the loop over [user.items()] on a copy of
    [default]; a key whose values are dicts on both sides is merged
    recursively, any other key takes the user's value. *)
Fixpoint merge_value (dv uv : json) {struct uv} : json :=
  match uv with
  | JDict u =>
      match dv with
      | JDict d =>
          JDict
            ((fix loop (result : dict) (items : list (string * json)) : dict :=
                match items with
                | [] => result
                | (key, value) :: rest =>
                    loop
                      (dict_set result key
                         match dict_get result key, value with
                         | Some (JDict dk), JDict _ => merge_value (JDict dk) value
                         | _, _ => value
                         end)
                      rest
                end) d u)
      | _ => uv
      end
  | _ => uv
  end.

Definition _merge_config (default user : dict) : dict :=
  match merge_value (JDict default) (JDict user) with
  | JDict result => result
  | _ => user
  end.

(** The loop and the assignment of [set]: the config after
    [config[k1]...[kn] = value], intermediate dicts being created where a key
    is missing; [None] stands for the [TypeError] that a value on the way
    raises when it is not a dict. *)
Fixpoint assign_keys (config : json) (keys : list string) (value : json)
    : option json :=
  match keys with
  | [] => Some value
  | key :: rest =>
      match config with
      | JDict d =>
          match assign_keys (dict_get_default d key (JDict [])) rest value with
          | Some v => Some (JDict (dict_set d key v))
          | None => None
          end
      | _ => None
      end
  end.

(** [set(path, value)]: the answer and the config afterwards.  An exception
    leaves the config as it is and answers [False]; otherwise the answer is
    what [save_config] returned, and the config is changed either way. *)
Definition config_set (config : dict) (path : string) (value : json)
    (saved : bool) : bool * dict :=
  match assign_keys (JDict config) (split_dots path) value with
  | Some (JDict config') => (saved, config')
  | _ => (false, config)
  end.

(** [update_hardware_config()]: [detected] is what [detect_hardware]
    returned, [saved] what [save_config] did.  [detect_hardware] is only
    called, and the config only written, when the type is [auto]. *)
Definition update_hardware_config (config : dict) (detected : string)
    (saved : bool) : dict :=
  match config_get config "hardware.gpu_type" JNull with
  | JStr t =>
      if String.eqb t "auto"
      then snd (config_set config "hardware.gpu_type" (JStr detected) saved)
      else config
  | _ => config
  end.

(** ** [json.loads] under the limits of the interpreter

    Besides [json.JSONDecodeError], [json.loads] raises two exceptions that
    depend on the interpreter it runs on.  The C scanner enters every object
    and every array through [Py_EnterRecursiveCall], which raises
    [RecursionError] once the interpreter allows no deeper call; and the
    conversion of an integer literal raises [ValueError] when the literal
    has more digits than [sys.get_int_max_str_digits()].  Neither is a
    [json.JSONDecodeError], so [generate_json_response] lets both through.
    The two limits are inputs of the decoder below; where it reaches
    neither, it is [json_loads].

    [nesting_room] is the number of objects and arrays, one inside the
    other, that the scanner can enter before [Py_EnterRecursiveCall]
    refuses: what the recursion limit leaves at the call of [json.loads].
    [int_max_str_digits] is [sys.get_int_max_str_digits()], 0 when the limit
    is off. *)

Record interpreter : Type := {
  nesting_room : nat;
  int_max_str_digits : nat
}.

(** The [ValueError] of [int] on a literal that is too long, as the
    [Exception] it is; its text (which gives the two numbers) is shortened. *)
Definition ValueError : exn :=
  Exception "Exceeds the limit for integer string conversion".

(** The test of [PyLong_FromString] on the digits of a literal: no limit is
    applied when it is 0, nor up to 640 digits. *)
Definition over_int_limit (py : interpreter) (ds : string) : bool :=
  (640 <? String.length ds) && (0 <? int_max_str_digits py)
  && (int_max_str_digits py <? String.length ds).

(** [_match_number_unicode]: the literal is matched first, an integer is
    then converted. *)
Definition match_number_in (py : interpreter) (s : string) : result (scan json) :=
  match match_number s, match_integer s with
  | Scanned (JInt n) rest, Some (_, ds, _) =>
      if over_int_limit py ds then Raise ValueError
      else Ok (Scanned (JInt n) rest)
  | r, _ => Ok r
  end.

(** [scan_once], [JSONArray] and [JSONObject] with [room] nested calls left:
    an object or an array takes one of them for its members. *)
Fixpoint scan_once_in (py : interpreter) (fuel room : nat) (s : string)
    {struct fuel} : result (scan json) :=
  match fuel with
  | O => Ok Exhausted
  | S fuel' =>
      match s with
      | EmptyString => Ok Invalid
      | String c s1 =>
          if code c =? 34 then
            match scanstring s1 EmptyString with
            | Scanned str rest => Ok (Scanned (JStr str) rest)
            | Invalid => Ok Invalid
            | Exhausted => Ok Exhausted
            end
          else if code c =? 123 then
            match room with
            | O => Raise RecursionError
            | S room' =>
                match skip_ws s1 with
                | EmptyString => Ok Invalid
                | String c2 s2 =>
                    if code c2 =? 125 then Ok (Scanned (JDict []) s2)
                    else if code c2 =? 34
                    then object_members_in py fuel' room' s2 []
                    else Ok Invalid
                end
            end
          else if code c =? 91 then
            match room with
            | O => Raise RecursionError
            | S room' =>
                match skip_ws s1 with
                | EmptyString => Ok Invalid
                | String c2 s2 =>
                    if code c2 =? 93 then Ok (Scanned (JList []) s2)
                    else array_items_in py fuel' room' (String c2 s2) []
                end
            end
          else
            match match_constant s with
            | Some (v, rest) => Ok (Scanned v rest)
            | None => match_number_in py s
            end
      end
  end

with array_items_in (py : interpreter) (fuel room : nat) (s : string)
    (acc : list json) {struct fuel} : result (scan json) :=
  match fuel with
  | O => Ok Exhausted
  | S fuel' =>
      match scan_once_in py fuel' room s with
      | Ok (Scanned v rest) =>
          match skip_ws rest with
          | EmptyString => Ok Invalid
          | String c r =>
              if code c =? 93 then Ok (Scanned (JList (rev (v :: acc))) r)
              else if code c =? 44
              then array_items_in py fuel' room (skip_ws r) (v :: acc)
              else Ok Invalid
          end
      | Ok Invalid => Ok Invalid
      | Ok Exhausted => Ok Exhausted
      | Raise e => Raise e
      end
  end

with object_members_in (py : interpreter) (fuel room : nat) (s : string)
    (acc : list (string * json)) {struct fuel} : result (scan json) :=
  match fuel with
  | O => Ok Exhausted
  | S fuel' =>
      match scanstring s EmptyString with
      | Scanned key rest =>
          match skip_ws rest with
          | EmptyString => Ok Invalid
          | String c r =>
              if code c =? 58 then
                match scan_once_in py fuel' room (skip_ws r) with
                | Ok (Scanned v rest2) =>
                    match skip_ws rest2 with
                    | EmptyString => Ok Invalid
                    | String c2 r2 =>
                        if code c2 =? 125 then
                          Ok (Scanned
                                (JDict (dict_of_pairs (rev ((key, v) :: acc)))) r2)
                        else if code c2 =? 44 then
                          match skip_ws r2 with
                          | EmptyString => Ok Invalid
                          | String c3 r3 =>
                              if code c3 =? 34
                              then object_members_in py fuel' room r3
                                     ((key, v) :: acc)
                              else Ok Invalid
                          end
                        else Ok Invalid
                    end
                | Ok Invalid => Ok Invalid
                | Ok Exhausted => Ok Exhausted
                | Raise e => Raise e
                end
              else Ok Invalid
          end
      | Invalid => Ok Invalid
      | Exhausted => Ok Exhausted
      end
  end.

(** What [json.loads(s)] does on the interpreter [py]: [Raise] is an
    exception other than [json.JSONDecodeError]. *)
Definition json_loads_in (py : interpreter) (s : string) : result loaded :=
  if startswith bom s then Ok JSONDecodeError
  else
    match scan_once_in py (2 * String.length s + 2) (nesting_room py)
            (skip_ws s) with
    | Ok (Scanned v rest) =>
        match skip_ws rest with
        | EmptyString => Ok (Parsed v)
        | String _ _ => Ok JSONDecodeError
        end
    | Ok Invalid => Ok JSONDecodeError
    | Ok Exhausted => Ok OutOfFuel
    | Raise e => Raise e
    end.

(** The [try] block that ends [generate_json_response], on the interpreter
    [py]: [except json.JSONDecodeError] catches the decode error of the
    direct parse and nothing else, and the inner [try] does the same for the
    parse of the match. *)
Definition extract_json_in (py : interpreter) (response_text : string)
    : result json :=
  match json_loads_in py response_text with
  | Raise e => Raise e
  | Ok (Parsed v) => Ok v
  | Ok OutOfFuel => Raise RecursionError
  | Ok JSONDecodeError =>
      match re_search_braces response_text with
      | Some group =>
          match json_loads_in py group with
          | Raise e => Raise e
          | Ok (Parsed v) => Ok v
          | Ok OutOfFuel => Raise RecursionError
          | Ok JSONDecodeError => Ok (parse_failure response_text)
          end
      | None => Ok (parse_failure response_text)
      end
  end.


(** * Vocabulary of the properties *)

(** [v] is a dict. *)
Definition is_dict (v : json) : Prop := exists d, v = JDict d.

(** [g] occurs in [text], starts with an opening brace and ends with a
    closing one. *)
Definition brace_delimited (g text : string) : Prop :=
  (exists pre post, text = pre ++ g ++ post) /\
  (exists body, g = String lbrace body) /\
  (exists body, g = body ++ String rbrace EmptyString).

Definition wrapped_object : string :=
  "Here you go: {" ++ dq ++ "a" ++ dq ++ ":1} thanks".


(** One text-generation call on the gateway, with what the endpoint did. *)
Record call : Type := {
  call_prompt : string;
  call_system : option string;
  call_session : string;
  call_net : exchange
}.

Definition do_call (self : OllamaClient) (c : call) : OllamaClient :=
  snd (generate_response self (call_prompt c) (call_system c)
         (call_session c) (call_net c)).

(** The gateway after a sequence of calls, the first call first. *)
Definition run (calls : list call) (self : OllamaClient) : OllamaClient :=
  fold_left do_call calls self.

Definition system_message (p : string) : message :=
  {| role := "system"; content := p |}.
Definition user_message (p : string) : message :=
  {| role := "user"; content := p |}.
Definition assistant_message (p : string) : message :=
  {| role := "assistant"; content := p |}.

(** The messages one call adds at the end of its session. *)
Definition turn (prompt : string) (net : exchange) : list message :=
  user_message prompt ::
  match net with
  | Ok reply => [assistant_message (strip reply)]
  | Raise _ => []
  end.

(** The turns of the calls made on [session_id], in the order of the
    calls. *)
Definition transcript (session_id : string) (calls : list call) : list message :=
  flat_map (fun c =>
              if String.eqb (call_session c) session_id
              then turn (call_prompt c) (call_net c) else []) calls.

Definition dialogue (m : message) : Prop :=
  role m = "user" \/ role m = "assistant".

(** At most one system message, in front. *)
Definition system_prefix (sys : list message) : Prop :=
  sys = [] \/ exists p, sys = [system_message p].

(** The stored history of a session ([[]] when it has none). *)
Definition history (self : OllamaClient) (session_id : string) : list message :=
  default [] (conversation_history self !! session_id).

(** What [generate_response] returns: the stripped reply, or the sentinel of
    the failure. *)
Definition response_text (net : exchange) : string :=
  match net with
  | Ok reply => strip reply
  | Raise Timeout => timeout_sentinel
  | Raise ConnectionError => connection_sentinel
  | Raise e => "Error: " ++ exn_str e
  end.

(** The value under an item's [title] key. *)
Definition title (it : dict) : option json := dict_get it "title".

(** The title is a string that is not empty. *)
Definition nonempty_title (it : dict) : Prop :=
  exists c t, title it = Some (JStr (String c t)).

(** The candidates [_validate_menu_items] accepts, in order. *)
Definition titled_dicts (items : list json) : list dict :=
  omap (fun candidate =>
          match candidate with
          | JDict d => if dict_has d "title" then Some d else None
          | _ => None
          end) items.

(** The progression catalogue's additions when fewer than two candidates
    survive. *)
Definition backstop (survivors : list dict) (completed_actions : list string)
    : list dict :=
  if length survivors <? 2
  then _get_progression_actions completed_actions else [].

Definition untitled (t : string) : dict :=
  item t "Execute this action" [] t "📋".

Definition six_candidates : list dict :=
  [untitled "Draft Charter"; untitled "Map Stakeholders";
   untitled "Estimate Budget"; untitled "Plan Timeline";
   untitled "Assess Risks"; untitled "Book Kickoff"].

(** A reply of the model that lists the six candidates as JSON objects with a
    title only. *)
Definition titled_object (t : string) : string :=
  "{" ++ dq ++ "title" ++ dq ++ ": " ++ dq ++ t ++ dq ++ "}".

Definition six_candidates_reply : string :=
  "[" ++ join ", " (map titled_object
         ["Draft Charter"; "Map Stakeholders"; "Estimate Budget";
          "Plan Timeline"; "Assess Risks"; "Book Kickoff"]) ++ "]".

(** Every title of the fallback catalogue and of the progression
    catalogue. *)
Definition all_catalogue_titles : list string :=
  ["Analyze Current State"; "Strategic Planning"; "Research Options";
   "Create Deliverable"; "Next Steps"; "Next Phase"; "Deep Dive"].

Definition sample_calls : list call :=
  [ {| call_prompt := "first"; call_system := None;
       call_session := "default"; call_net := Ok " hello " |};
    {| call_prompt := "second"; call_system := Some "be brief";
       call_session := "default"; call_net := Raise ConnectionError |};
    {| call_prompt := "elsewhere"; call_system := Some "other";
       call_session := "B"; call_net := Ok "hi" |};
    {| call_prompt := "third"; call_system := Some "be verbose";
       call_session := "default"; call_net := Ok "done" |} ].

Definition sample_history : list message :=
  [ system_message "be brief"; user_message "first";
    assistant_message "hello"; user_message "second";
    user_message "third"; assistant_message "done" ].

(** The calls of a sequence that are made on [session_id]. *)
Definition calls_on (session_id : string) (calls : list call) : list call :=
  List.filter (fun c => String.eqb (call_session c) session_id) calls.

(** The system message a call puts in front of the messages [old]: the one
    of its system prompt when that is given, not empty, and [old] does not
    start with a system message. *)
Definition inserted_system (sp : option string) (old : list message)
    : list message :=
  if truthy sp && lacks_system old
  then [system_message (default EmptyString sp)] else [].

(** A dict with a [name] key. *)
Definition well_named (model : json) : Prop :=
  exists m name, model = JDict m /\ dict_get m "name" = Some name.

(** The entry [list_models] makes of a model. *)
Definition listed (model : json) : dict :=
  match model with
  | JDict m =>
      [("name", dict_get_default m "name" JNull);
       ("size", dict_get_default m "size" (JInt 0));
       ("modified_at", dict_get_default m "modified_at" (JStr EmptyString))]
  | _ => []
  end.

(** The keys of a menu item, in order. *)
Definition five_keys : list string := ["title"; "prompt"; "tools"; "alt"; "icon"].

(** A dict with exactly the five keys of a menu item. *)
Definition canonical (it : dict) : Prop := map fst it = five_keys.

(** The title of the candidate is there and is not a string. *)
Definition bad_title (candidate : json) : Prop :=
  exists d v, candidate = JDict d /\ dict_get d "title" = Some v /\
              forall s, v <> JStr s.


(** The system prompt [generate_json_response] passes on. *)
Definition json_system (sp : option string) : string :=
  if truthy sp
  then json_system_base ++ " " ++ default EmptyString sp
  else json_system_base.

(** The prompts of the two calls of [execute_action]. *)
Definition primary_prompt (context : list (string * string)) (user_input : string)
    : string :=
  execute_user_prompt (context_get context "action_prompt" EmptyString)
    (context_get context "context" EmptyString) user_input.

Definition primary_system (context : list (string * string)) : string :=
  execute_system_prompt (context_get context "role" "General User")
    (context_get context "parent_content" EmptyString).

Definition secondary_prompt (context : list (string * string)) (net : exchange)
    : string :=
  next_actions_user_prompt (context_get context "role" "General User")
    (response_text net).

(** [x == "error"] *)
Definition is_error_string (x : json) : bool :=
  match x with
  | JStr s => String.eqb s "error"
  | _ => false
  end.

(** One turn of the loop of [_merge_config]. *)
Definition merge_step (result : dict) (kv : string * json) : dict :=
  dict_set result (fst kv)
    match dict_get result (fst kv), snd kv with
    | Some (JDict dk), JDict uk => JDict (_merge_config dk uk)
    | _, _ => snd kv
    end.

(** [s.isascii()] *)
Fixpoint isascii (s : string) : bool :=
  match s with
  | EmptyString => true
  | String c s' => (code c <? 128) && isascii s'
  end.

(** Every title of the menu that is a string is an ASCII string. *)
Definition ascii_titles (menu_items : list dict) : bool :=
  forallb (fun it => match dict_get it "title" with
                     | Some (JStr s) => isascii s
                     | _ => true
                     end) menu_items.

(** [s * n] *)
Fixpoint str_repeat (s : string) (n : nat) : string :=
  match n with
  | O => EmptyString
  | S n' => s ++ str_repeat s n'
  end.




(** * Properties *)

(** ** Strings *)

Lemma startswith_app (p s : string) :
  startswith p s = true -> s = p ++ str_drop (String.length p) s.
Proof.
  revert s. induction p as [|a p IH]; intros [|b s] H; simpl in *; try done.
  apply andb_prop in H as [Hab Hp].
  apply Ascii.eqb_eq in Hab as ->.
  change (String b s = String b (p ++ str_drop (String.length p) s)).
  f_equal. by apply IH.
Qed.

Lemma str_drop_length (n : nat) (s : string) :
  String.length (str_drop n s) = String.length s - n.
Proof.
  revert s. induction n as [|n IH]; intros [|c s]; simpl; done.
Qed.

Lemma startswith_length (p s : string) :
  startswith p s = true -> String.length p <= String.length s.
Proof.
  revert s. induction p as [|a p IH]; intros [|b s] H; simpl in *;
    try done; try lia.
  apply andb_prop in H as [_ Hp]. apply IH in Hp. lia.
Qed.

Lemma skip_ws_length (s : string) :
  String.length (skip_ws s) <= String.length s.
Proof.
  induction s as [|c s IH]; simpl; [done|].
  destruct (is_ws c); simpl; lia.
Qed.

(** ** The decoder consumes input, and its fuel is enough *)

(** Case analysis on the first test of the hypothesis [H]. *)
Ltac branch H :=
  match type of H with
  | context [if ?b then _ else _] => destruct b eqn:?
  | context [match ?x with _ => _ end] => destruct x eqn:?
  end.

Lemma scanstring_length (n : nat) :
  forall s acc k r,
    String.length s <= n ->
    scanstring s acc = Scanned k r -> String.length r < String.length s.
Proof.
  induction n as [|n IH]; intros s acc k r Hn H.
  - destruct s; cbn [scanstring String.length] in *; [done | lia].
  - destruct s as [|c s1]; cbn [scanstring] in H; [done|].
    repeat (branch H; try discriminate H);
      cbn [String.length] in *;
      first [ injection H as <- <-; lia
            | apply IH in H; cbn [String.length] in *; lia ].
Qed.

Lemma span_digits_length (s ds rest : string) :
  span_digits s = (ds, rest) -> String.length rest <= String.length s.
Proof.
  revert ds rest. induction s as [|c s IH]; intros ds rest H;
    cbn [span_digits] in H.
  - by injection H as <- <-.
  - destruct (is_digit c).
    + destruct (span_digits s) as [ds' rest'] eqn:E.
      injection H as <- <-. specialize (IH _ _ eq_refl).
      cbn [String.length]. lia.
    + injection H as <- <-. done.
Qed.

Lemma match_integer_length (s : string) neg ds rest :
  match_integer s = Some (neg, ds, rest) ->
  String.length rest < String.length s.
Proof.
  unfold match_integer. intros H.
  destruct s as [|c s']; [done|].
  destruct (code c =? 45).
  - destruct s' as [|c2 s2]; [done|].
    destruct (code c2 =? 48).
    + injection H as <- <- <-. cbn [String.length]. lia.
    + destruct (is_digit c2) eqn:Hd; [|done].
      cbn [span_digits] in H. rewrite Hd in H.
      destruct (span_digits s2) as [ds' rest'] eqn:E.
      injection H as <- <- <-. apply span_digits_length in E.
      cbn [String.length]. lia.
  - destruct (code c =? 48).
    + injection H as <- <- <-. cbn [String.length]. lia.
    + destruct (is_digit c) eqn:Hd; [|done].
      cbn [span_digits] in H. rewrite Hd in H.
      destruct (span_digits s') as [ds' rest'] eqn:E.
      injection H as <- <- <-. apply span_digits_length in E.
      cbn [String.length]. lia.
Qed.

Lemma match_frac_length (s frac rest : string) :
  match_frac s = (frac, rest) -> String.length rest <= String.length s.
Proof.
  unfold match_frac. intros H.
  destruct s as [|c s1]; [by injection H as <- <-|].
  destruct (code c =? 46); [|by injection H as <- <-].
  destruct (span_digits s1) as [[|d ds] r] eqn:E; injection H as <- <-;
    [done|].
  apply span_digits_length in E. cbn [String.length]. lia.
Qed.

Lemma match_exp_length (s e rest : string) :
  match_exp s = (e, rest) -> String.length rest <= String.length s.
Proof.
  unfold match_exp. intros H.
  destruct s as [|c s1]; [by injection H as <- <-|].
  destruct (_ || _); [|by injection H as <- <-].
  destruct s1 as [|g s'].
  - cbn [span_digits] in H. by injection H as <- <-.
  - destruct (_ || _).
    + destruct (span_digits s') as [[|d ds] r] eqn:E; injection H as <- <-;
        [done|].
      apply span_digits_length in E. cbn [String.length]. lia.
    + destruct (span_digits (String g s')) as [[|d ds] r] eqn:E;
        injection H as <- <-; [done|].
      apply span_digits_length in E. cbn [String.length] in *. lia.
Qed.

Lemma match_number_length (s : string) v rest :
  match_number s = Scanned v rest -> String.length rest < String.length s.
Proof.
  unfold match_number. intros H.
  destruct (match_integer s) as [[[neg ds] s1]|] eqn:E1; [|done].
  destruct (match_frac s1) as [frac s2] eqn:E2.
  destruct (match_exp s2) as [e s3] eqn:E3.
  apply match_integer_length in E1.
  apply match_frac_length in E2.
  apply match_exp_length in E3.
  destruct frac, e; injection H as <- <-; lia.
Qed.

Lemma match_number_fuel (s : string) : match_number s <> Exhausted.
Proof.
  unfold match_number.
  destruct (match_integer s) as [[[neg ds] s1]|]; [|done].
  destruct (match_frac s1) as [frac s2].
  destruct (match_exp s2) as [e s3].
  by destruct frac, e.
Qed.

Lemma str_drop_prefix_length (p s : string) :
  startswith p s = true -> 0 < String.length p ->
  String.length (str_drop (String.length p) s) < String.length s.
Proof.
  intros H Hp. apply startswith_length in H. rewrite str_drop_length. lia.
Qed.

Lemma match_constant_length (s : string) v rest :
  match_constant s = Some (v, rest) -> String.length rest < String.length s.
Proof.
  unfold match_constant. intros H.
  repeat match type of H with
  | context [startswith ?p s] =>
      destruct (startswith p s) eqn:E;
        [ injection H as <- <-;
          apply (str_drop_prefix_length p s E); cbn [String.length]; lia
        | clear E ]
  end.
  done.
Qed.

Lemma scanstring_fuel (s acc : string) : scanstring s acc <> Exhausted.
Proof.
  remember (String.length s) as n eqn:Hn.
  assert (String.length s <= n) as Hle by lia. clear Hn.
  revert s acc Hle. induction n as [|n IH]; intros s acc Hle.
  - destruct s; cbn [String.length] in Hle; [done | lia].
  - destruct s as [|c s1]; cbn [scanstring]; [done|].
    repeat (match goal with
            | |- context [if ?b then _ else _] => destruct b eqn:?
            | |- context [match ?x with _ => _ end] => destruct x eqn:?
            end; try done);
      cbn [String.length] in *; apply IH; cbn [String.length]; lia.
Qed.

Lemma scanstring_shorter (s acc k r : string) :
  scanstring s acc = Scanned k r -> String.length r < String.length s.
Proof. by apply (scanstring_length (String.length s)). Qed.

(** Collect what is known about the lengths of the strings in the context. *)
Ltac note_skip x :=
  lazymatch goal with
  | _ : String.length (skip_ws x) <= String.length x |- _ => fail
  | _ => pose proof (skip_ws_length x)
  end.

Ltac lengths :=
  repeat match goal with
  | E : scanstring _ _ = Scanned _ _ |- _ => apply scanstring_shorter in E
  | E : match_number _ = Scanned _ _ |- _ => apply match_number_length in E
  | E : match_constant _ = Some _ |- _ => apply match_constant_length in E
  | E : skip_ws ?x = _ |- _ => note_skip x
  | E : context [String.length (skip_ws ?x)] |- _ => note_skip x
  | |- context [String.length (skip_ws ?x)] => note_skip x
  end;
  repeat match goal with
  | E : skip_ws ?x = _, L : context [skip_ws ?x] |- _ =>
      lazymatch L with E => fail | _ => rewrite E in L end
  end;
  cbn [String.length] in *.

Lemma scan_length (fuel : nat) :
  (forall s v r, scan_once fuel s = Scanned v r ->
     String.length r < String.length s) /\
  (forall s acc v r, array_items fuel s acc = Scanned v r ->
     String.length r < String.length s) /\
  (forall s acc v r, object_members fuel s acc = Scanned v r ->
     String.length r < String.length s).
Proof.
  induction fuel as [|fuel (IHo & IHa & IHm)]; [by repeat split|].
  repeat split.
  - intros s v r H. destruct s as [|c s1]; cbn [scan_once] in H; [done|].
    repeat (branch H; try discriminate H);
      try (injection H as <- <-);
      try (apply IHa in H); try (apply IHm in H);
      lengths; lia.
  - intros s acc v r H. cbn [array_items] in H.
    repeat (branch H; try discriminate H);
      try (injection H as <- <-);
      try (apply IHa in H);
      repeat match goal with
      | E : scan_once fuel _ = Scanned _ _ |- _ => apply IHo in E
      end;
      lengths; lia.
  - intros s acc v r H. cbn [object_members] in H.
    repeat (branch H; try discriminate H);
      try (injection H as <- <-);
      try (apply IHm in H);
      repeat match goal with
      | E : scan_once fuel _ = Scanned _ _ |- _ => apply IHo in E
      end;
      lengths; lia.
Qed.

Lemma scan_fuel (fuel : nat) :
  (forall s, 2 * String.length s + 1 <= fuel -> scan_once fuel s <> Exhausted) /\
  (forall s acc, 2 * String.length s + 2 <= fuel ->
     array_items fuel s acc <> Exhausted) /\
  (forall s acc, 2 * String.length s + 2 <= fuel ->
     object_members fuel s acc <> Exhausted).
Proof.
  induction fuel as [|fuel (IHo & IHa & IHm)]; [repeat split; intros; lia|].
  destruct (scan_length fuel) as (Lo & La & Lm).
  repeat split.
  - intros s Hf H. destruct s as [|c s1]; cbn [scan_once] in H; [done|].
    cbn [String.length] in Hf.
    repeat (branch H; try discriminate H);
      first [ by eapply scanstring_fuel
            | by eapply match_number_fuel
            | eapply IHm; [|exact H]; lengths; lia
            | eapply IHa; [|exact H]; lengths; lia ].
  - intros s acc Hf H. cbn [array_items] in H.
    repeat (branch H; try discriminate H);
      repeat match goal with
      | E : scan_once fuel _ = Scanned _ _ |- _ => apply Lo in E
      end;
      first [ eapply IHo; [|eassumption]; lengths; lia
            | eapply IHa; [|exact H]; lengths; lia ].
  - intros s acc Hf H. cbn [object_members] in H.
    repeat (branch H; try discriminate H);
      repeat match goal with
      | E : scan_once fuel _ = Scanned _ _ |- _ => apply Lo in E
      end;
      first [ by eapply scanstring_fuel
            | eapply IHo; [|eassumption]; lengths; lia
            | eapply IHm; [|exact H]; lengths; lia ].
Qed.

(** [json.loads] always comes to a value or to a decode error. *)
Lemma json_loads_fuel (s : string) : json_loads s <> OutOfFuel.
Proof.
  unfold json_loads. destruct (startswith bom s); [done|].
  destruct (scan_once _ _) as [v rest| |] eqn:E.
  - by destruct (skip_ws rest).
  - done.
  - exfalso. eapply (proj1 (scan_fuel _)); [|exact E].
    pose proof (skip_ws_length s). lia.
Qed.

(** ** A text that starts with a brace decodes to a dict or not at all *)

Lemma object_members_dict (fuel : nat) :
  forall s acc v r, object_members fuel s acc = Scanned v r -> is_dict v.
Proof.
  induction fuel as [|fuel IH]; intros s acc v r H; [done|].
  cbn [object_members] in H.
  repeat (branch H; try discriminate H).
  - injection H as <- <-. by eexists.
  - by eapply IH.
Qed.

Lemma scan_once_brace (fuel : nat) (s1 : string) v r :
  scan_once fuel (String lbrace s1) = Scanned v r -> is_dict v.
Proof.
  destruct fuel as [|fuel]; [done|]. cbn [scan_once].
  change (code lbrace =? 34) with false.
  change (code lbrace =? 123) with true. cbv iota.
  intros H. repeat (branch H; try discriminate H).
  - injection H as <- <-. by eexists.
  - by eapply object_members_dict.
Qed.

Lemma json_loads_brace (s1 : string) v :
  json_loads (String lbrace s1) = Parsed v -> is_dict v.
Proof.
  unfold json_loads. change (startswith bom (String lbrace s1)) with false.
  cbv iota. change (skip_ws (String lbrace s1)) with (String lbrace s1).
  destruct (scan_once _ _) as [v' rest| |] eqn:E; [|done..].
  destruct (skip_ws rest); [|done]. intros [= <-].
  by eapply scan_once_brace.
Qed.

(** ** The brace-delimited match *)

Lemma from_first_spec (c : ascii) (s t : string) :
  from_first c s = Some t ->
  exists pre body, s = pre ++ t /\ t = String c body.
Proof.
  revert t. induction s as [|a s IH]; intros t H; cbn [from_first] in H;
    [done|].
  destruct (Ascii.eqb a c) eqn:E.
  - injection H as <-. apply Ascii.eqb_eq in E as ->.
    by exists EmptyString, s.
  - destruct (IH _ H) as (pre & body & -> & ->).
    by exists (String a pre), body.
Qed.

Lemma upto_last_spec (c : ascii) (s p : string) :
  upto_last c s = Some p ->
  exists body post, s = p ++ post /\ p = body ++ String c EmptyString.
Proof.
  revert p. induction s as [|a s IH]; intros p H; cbn [upto_last] in H;
    [done|].
  destruct (upto_last c s) as [p'|] eqn:E.
  - injection H as <-. destruct (IH _ eq_refl) as (body & post & -> & ->).
    by exists (String a body), post.
  - destruct (Ascii.eqb a c) eqn:Ea; [|done].
    injection H as <-. apply Ascii.eqb_eq in Ea as ->.
    by exists EmptyString, s.
Qed.

Lemma string_app_assoc (a b c : string) : (a ++ b) ++ c = a ++ (b ++ c).
Proof.
  induction a as [|x a IH]; [done|].
  change (String x ((a ++ b) ++ c) = String x (a ++ (b ++ c))).
  by rewrite IH.
Qed.

Lemma re_search_braces_spec (text g : string) :
  re_search_braces text = Some g -> brace_delimited g text.
Proof.
  unfold re_search_braces. intros H.
  destruct (from_first lbrace text) as [[|b body]|] eqn:E1; [done| |done].
  destruct (upto_last rbrace body) as [p|] eqn:E2; [|done].
  injection H as <-.
  apply from_first_spec in E1 as (pre & body' & -> & [= -> ->]).
  apply upto_last_spec in E2 as (inner & post & -> & ->).
  repeat split.
  - by exists pre, post.
  - by eexists.
  - by exists (String lbrace inner).
Qed.



(** ** The response normaliser *)

(** When the direct parse fails, the result is the error value or a dict
    decoded from the brace-delimited match. *)
Lemma extract_json_second_tier (raw : string) :
  json_loads raw = JSONDecodeError ->
  (extract_json raw = Ok (parse_failure raw) /\
   forall g, re_search_braces raw = Some g -> json_loads g = JSONDecodeError) \/
  exists g d, re_search_braces raw = Some g /\
              json_loads g = Parsed (JDict d) /\
              extract_json raw = Ok (JDict d).
Proof.
  intros Hraw. unfold extract_json. rewrite Hraw.
  destruct (re_search_braces raw) as [g|] eqn:Eg; [|by left].
  destruct (json_loads g) as [v| |] eqn:Ev.
  - destruct (re_search_braces_spec _ _ Eg) as (_ & (body & ->) & _).
    destruct (json_loads_brace _ _ Ev) as [d ->].
    right. by exists (String lbrace body), d.
  - left. split; [done|]. by intros g' [= <-].
  - by apply json_loads_fuel in Ev.
Qed.

(** C5: the extraction applied to the text [Here you go: {"a":1} thanks]
    yields the dict that maps a to 1: the direct parse fails and the greedy
    brace-delimited match, [{"a":1}], parses.  Applied to [not json at all]
    it yields the parse-failure dict that carries the raw text. *)
Theorem extract_json_examples :
  json_loads wrapped_object = JSONDecodeError /\
  re_search_braces wrapped_object = Some ("{" ++ dq ++ "a" ++ dq ++ ":1}") /\
  extract_json wrapped_object = Ok (JDict [("a", JInt 1)]) /\
  json_loads "not json at all" = JSONDecodeError /\
  re_search_braces "not json at all" = None /\
  extract_json "not json at all" =
    Ok (JDict [("error", JStr "Failed to parse JSON response");
               ("raw_response", JStr "not json at all")]).
Proof. split_and!; vm_compute; reflexivity. Qed.

(** ** The decoder under the limits of the interpreter *)

Lemma match_number_in_Ok (py : interpreter) (s : string) (x : scan json) :
  match_number_in py s = Ok x -> match_number s = x.
Proof.
  unfold match_number_in. intros H.
  destruct (match_number s) as [[]| |]; try (by injection H);
    destruct (match_integer s) as [[[? ds] ?]|]; try (by injection H).
  destruct (over_int_limit py ds); [done | by injection H].
Qed.

Lemma scan_in_refines (py : interpreter) (fuel : nat) :
  (forall room s x, scan_once_in py fuel room s = Ok x -> scan_once fuel s = x) /\
  (forall room s acc x,
     array_items_in py fuel room s acc = Ok x -> array_items fuel s acc = x) /\
  (forall room s acc x,
     object_members_in py fuel room s acc = Ok x ->
     object_members fuel s acc = x).
Proof.
  induction fuel as [|fuel (IHo & IHa & IHm)].
  - split_and!; intros; cbn in *; congruence.
  - split_and!.
    + intros room s x H. destruct s as [|c s1]; cbn [scan_once_in scan_once] in *;
        [congruence|].
      repeat (branch H; try discriminate H);
        first [ by injection H
              | by eapply IHm | by eapply IHa
              | by apply match_number_in_Ok in H ].
    + intros room s acc x H. cbn [array_items_in array_items] in *.
      destruct (scan_once_in py fuel room s) as [y|e] eqn:E; [|done].
      apply IHo in E. rewrite E.
      repeat (branch H; try discriminate H);
        first [ by injection H | by eapply IHa ].
    + intros room s acc x H. cbn [object_members_in object_members] in *.
      destruct (scanstring s EmptyString) as [key rest| |];
        [|by injection H|by injection H].
      destruct (skip_ws rest) as [|c r]; [by injection H|].
      destruct (code c =? 58); [|by injection H].
      destruct (scan_once_in py fuel room (skip_ws r)) as [y|e] eqn:E; [|done].
      apply IHo in E. rewrite E.
      repeat (branch H; try discriminate H);
        first [ by injection H | by eapply IHm ].
Qed.

(** Where the decoder does not reach a limit of the interpreter it is
    [json_loads]. *)
Lemma json_loads_in_refines (py : interpreter) (s : string) (x : loaded) :
  json_loads_in py s = Ok x -> json_loads s = x.
Proof.
  unfold json_loads_in, json_loads. intros H.
  destruct (startswith bom s); [by injection H|].
  destruct (scan_once_in py _ _ _) as [y|e] eqn:E; [|done].
  apply (proj1 (scan_in_refines py _)) in E. rewrite E.
  destruct y as [v rest| |]; [|by injection H|by injection H].
  destruct (skip_ws rest); by injection H.
Qed.


Lemma match_number_in_unlimited (py : interpreter) (s : string) :
  int_max_str_digits py = 0 -> match_number_in py s = Ok (match_number s).
Proof.
  intros H0. unfold match_number_in, over_int_limit. rewrite H0.
  destruct (match_number s) as [[]| |]; try done.
  destruct (match_integer s) as [[[? ds] ?]|]; [|done].
  by rewrite andb_false_r.
Qed.

(** An interpreter without a digit limit, with room for as many nested
    calls as the text has characters, reaches no limit. *)
Lemma scan_in_unlimited (py : interpreter) (fuel : nat) :
  int_max_str_digits py = 0 ->
  (forall room s, String.length s <= room ->
     scan_once_in py fuel room s = Ok (scan_once fuel s)) /\
  (forall room s acc, String.length s <= room ->
     array_items_in py fuel room s acc = Ok (array_items fuel s acc)) /\
  (forall room s acc, String.length s <= room ->
     object_members_in py fuel room s acc = Ok (object_members fuel s acc)).
Proof.
  intros H0. induction fuel as [|fuel (IHo & IHa & IHm)]; [done|].
  destruct (scan_length fuel) as (Lo & La & Lm).
  split_and!.
  - intros room s Hr. destruct s as [|c s1]; cbn [scan_once_in scan_once];
      [done|].
    cbn [String.length] in Hr.
    destruct (code c =? 34); [by destruct (scanstring s1 EmptyString)|].
    destruct (code c =? 123).
    { destruct room as [|room]; [lia|].
      destruct (skip_ws s1) as [|c2 s2] eqn:E; [done|].
      destruct (code c2 =? 125); [done|].
      destruct (code c2 =? 34); [|done].
      apply IHm. lengths. lia. }
    destruct (code c =? 91).
    { destruct room as [|room]; [lia|].
      destruct (skip_ws s1) as [|c2 s2] eqn:E; [done|].
      destruct (code c2 =? 93); [done|].
      apply IHa. lengths. lia. }
    destruct (match_constant (String c s1)) as [[v rest]|]; [done|].
    by apply match_number_in_unlimited.
  - intros room s acc Hr. cbn [array_items_in array_items].
    rewrite (IHo room s Hr).
    destruct (scan_once fuel s) as [v rest| |] eqn:E; try done.
    destruct (skip_ws rest) as [|c r] eqn:Er; [done|].
    destruct (code c =? 93); [done|].
    destruct (code c =? 44); [|done].
    apply IHa. apply Lo in E. lengths. lia.
  - intros room s acc Hr. cbn [object_members_in object_members].
    destruct (scanstring s EmptyString) as [key rest| |] eqn:Ek; try done.
    destruct (skip_ws rest) as [|c r] eqn:Er; [done|].
    destruct (code c =? 58); [|done].
    assert (String.length (skip_ws r) <= room) as Hr2 by (lengths; lia).
    rewrite (IHo room _ Hr2).
    destruct (scan_once fuel (skip_ws r)) as [v rest2| |] eqn:E; try done.
    destruct (skip_ws rest2) as [|c2 r2] eqn:Er2; [done|].
    destruct (code c2 =? 125); [done|].
    destruct (code c2 =? 44); [|done].
    destruct (skip_ws r2) as [|c3 r3] eqn:Er3; [done|].
    destruct (code c3 =? 34); [|done].
    apply IHm. apply Lo in E. lengths. lia.
Qed.

Lemma json_loads_in_unlimited (py : interpreter) (s : string) :
  int_max_str_digits py = 0 -> String.length s <= nesting_room py ->
  json_loads_in py s = Ok (json_loads s).
Proof.
  intros H0 Hr. unfold json_loads_in, json_loads.
  destruct (startswith bom s); [done|].
  rewrite (proj1 (scan_in_unlimited py _ H0)) by (pose proof (skip_ws_length s); lia).
  destruct (scan_once _ _) as [v rest| |]; try done.
  by destruct (skip_ws rest).
Qed.



(** Where the extraction returns on an interpreter, it returns what it
    returns without the limits. *)
Lemma extract_json_in_refines (py : interpreter) (text : string) (v : json) :
  extract_json_in py text = Ok v -> extract_json text = Ok v.
Proof.
  unfold extract_json_in, extract_json. intros H.
  destruct (json_loads_in py text) as [x|e] eqn:E; [|done].
  apply json_loads_in_refines in E. rewrite E.
  destruct x as [w| |]; [done| |done].
  destruct (re_search_braces text) as [g|]; [|done].
  destruct (json_loads_in py g) as [y|e] eqn:Eg; [|done].
  apply json_loads_in_refines in Eg. rewrite Eg.
  by destruct y.
Qed.

Lemma str_repeat_bracket (n : nat) :
  str_repeat "[" (S n) = String (ascii_of_nat 91) (str_repeat "[" n).
Proof. reflexivity. Qed.

(** More opening brackets than the interpreter has room for. *)
Lemma scan_once_in_deep (py : interpreter) (room : nat) :
  forall fuel k, 2 * room + 1 <= fuel ->
    scan_once_in py fuel room (str_repeat "[" (S room + k)) = Raise RecursionError.
Proof.
  induction room as [|room IH]; intros fuel k Hf.
  - destruct fuel as [|fuel]; [lia|]. reflexivity.
  - destruct fuel as [|[|fuel]]; try lia.
    change (S (S room) + k) with (S (S room + k)).
    rewrite str_repeat_bracket. cbn [scan_once_in]. 
    change (code (ascii_of_nat 91) =? 34) with false.
    change (code (ascii_of_nat 91) =? 123) with false.
    change (code (ascii_of_nat 91) =? 91) with true. cbv iota.
    change (S room + k) with (S (room + k)). rewrite str_repeat_bracket.
    change (skip_ws (String (ascii_of_nat 91) ?s)) with (String (ascii_of_nat 91) s).
    cbv iota.
    change (code (ascii_of_nat 91) =? 93) with false. cbv iota.
    cbn [array_items_in]. rewrite <- str_repeat_bracket.
    change (S (room + k)) with (S room + k).
    rewrite IH by lia. reflexivity.
Qed.

Lemma str_repeat_length (c : ascii) (n : nat) :
  String.length (str_repeat (String c EmptyString) n) = n.
Proof.
  induction n as [|n IH]; [done|].
  change (str_repeat (String c EmptyString) (S n))
    with (String c (str_repeat (String c EmptyString) n)).
  cbn [String.length]. by rewrite IH.
Qed.

(** On every interpreter some text of brackets makes [json.loads] raise
    [RecursionError], and the extraction with it. *)
Lemma extract_json_in_deep (py : interpreter) (k : nat) :
  let raw := str_repeat "[" (S (nesting_room py) + k) in
  json_loads_in py raw = Raise RecursionError /\
  extract_json_in py raw = Raise RecursionError.
Proof.
  cbn zeta.
  assert (json_loads_in py (str_repeat "[" (S (nesting_room py) + k))
          = Raise RecursionError) as H.
  { unfold json_loads_in.
    change (S (nesting_room py) + k) with (S (nesting_room py + k)).
    rewrite str_repeat_bracket.
    change (startswith bom (String (ascii_of_nat 91) ?s)) with false. cbv iota.
    change (skip_ws (String (ascii_of_nat 91) ?s)) with (String (ascii_of_nat 91) s).
    rewrite <- str_repeat_bracket.
    change (S (nesting_room py + k)) with (S (nesting_room py) + k).
    rewrite scan_once_in_deep; [done|].
    rewrite str_repeat_length. lia. }
  split; [done|]. unfold extract_json_in. by rewrite H.
Qed.

(** C9 as stated fails: on an interpreter with room for 1000 nested calls
    and a limit of 4300 digits, the text of a stray letter and an object
    that holds 1100 opening brackets does not parse, its brace-delimited
    match does not parse either (not even without the limits), and the
    extraction raises [RecursionError] where the claim has it return the
    parse-failure value.  The same happens on 1100 opening brackets alone,
    which have no brace at all, and, with [ValueError], on a literal of
    4301 digits followed by a stray letter. *)




(** ** The gateway's session history *)

(** What a call returns. *)
Lemma generate_response_returns self prompt sp sid net :
  fst (generate_response self prompt sp sid net) = Ok (response_text net).
Proof.
  unfold generate_response, get_or_create_conversation.
  destruct (conversation_history self !! sid); by destruct net as [|[]].
Qed.

(** What a call does to the histories. *)
Lemma generate_response_history self prompt sp sid net :
  conversation_history (snd (generate_response self prompt sp sid net)) =
  <[sid :=
      ((if truthy sp && lacks_system (history self sid)
        then system_message (default EmptyString sp) :: history self sid
        else history self sid) ++ turn prompt net)%list]>
    (conversation_history self).
Proof.
  unfold generate_response, get_or_create_conversation, history, turn.
  destruct (conversation_history self !! sid) as [old|] eqn:E;
    destruct net as [reply|[]]; cbn [snd store conversation_history default];
    rewrite ?insert_insert_eq, <- ?app_assoc; reflexivity.
Qed.

Lemma generate_response_model self prompt sp sid net :
  current_model (snd (generate_response self prompt sp sid net)) =
  current_model self.
Proof.
  unfold generate_response, get_or_create_conversation.
  destruct (conversation_history self !! sid); by destruct net as [|[]].
Qed.

Lemma dialogue_not_system (m : message) : dialogue m -> role m <> "system".
Proof. by intros [-> | ->]. Qed.

Lemma turn_dialogue prompt net : Forall dialogue (turn prompt net).
Proof.
  unfold turn. destruct net; repeat constructor; first [by left | by right].
Qed.

Lemma transcript_dialogue sid calls : Forall dialogue (transcript sid calls).
Proof.
  unfold transcript. apply Forall_flat_map, Forall_forall. intros c _.
  destruct (String.eqb _ _); [apply turn_dialogue | constructor].
Qed.

Lemma lacks_system_shape (sys t : list message) :
  system_prefix sys -> Forall dialogue t ->
  lacks_system (sys ++ t) = match sys with [] => true | _ => false end.
Proof.
  intros [-> | [p ->]] Ht; [|done].
  destruct Ht as [|m t Hm _]; [done|]. cbn.
  apply dialogue_not_system in Hm.
  by destruct (String.eqb_spec (role m) "system").
Qed.

(** One call keeps the shape: a system prefix, then the turns so far. *)
Lemma do_call_shape (self : OllamaClient) (c : call) (sid : string)
    (t : list message) :
  Forall dialogue t ->
  (exists sys, system_prefix sys /\ history self sid = (sys ++ t)%list) ->
  exists sys, system_prefix sys /\
    history (do_call self c) sid = (sys ++ t ++ transcript sid [c])%list.
Proof.
  intros Ht (sys & Hsys & Hh). unfold do_call, history at 1.
  rewrite generate_response_history. unfold transcript. cbn [flat_map].
  rewrite app_nil_r.
  destruct (String.eqb_spec (call_session c) sid) as [->|Hne].
  - rewrite lookup_insert_eq. cbn [default]. rewrite Hh.
    rewrite (lacks_system_shape _ _ Hsys Ht).
    destruct (truthy (call_system c)) eqn:Htr; cbn [andb].
    + destruct sys as [|s sys'].
      * exists [system_message (default EmptyString (call_system c))].
        split; [right; by eexists|]. by rewrite app_nil_l.
      * exists (s :: sys'). split; [done|]. by rewrite app_assoc.
    + exists sys. split; [done|]. by rewrite app_assoc.
  - rewrite lookup_insert_ne by done. rewrite app_nil_r.
    exists sys. split; [done|]. exact Hh.
Qed.

Lemma transcript_app sid (xs ys : list call) :
  transcript sid (xs ++ ys) = (transcript sid xs ++ transcript sid ys)%list.
Proof. unfold transcript. apply flat_map_app. Qed.

Lemma run_shape (calls : list call) :
  forall (self : OllamaClient) (sid : string) (t : list message),
    Forall dialogue t ->
    (exists sys, system_prefix sys /\ history self sid = (sys ++ t)%list) ->
    exists sys, system_prefix sys /\
      history (run calls self) sid = (sys ++ t ++ transcript sid calls)%list.
Proof.
  induction calls as [|c calls IH]; intros self sid t Ht Hs.
  - cbn. by rewrite app_nil_r.
  - cbn [run fold_left]. fold (run calls (do_call self c)).
    change (c :: calls) with ([c] ++ calls)%list.
    rewrite transcript_app, app_assoc.
    apply IH.
    + apply Forall_app. split; [done | apply transcript_dialogue].
    + by apply do_call_shape.
Qed.

Lemma system_only_first (sys t : list message) (i : nat) (m : message) :
  system_prefix sys -> Forall dialogue t ->
  (sys ++ t)%list !! i = Some m -> role m = "system" -> i = 0.
Proof.
  intros Hsys Ht Hi Hm.
  destruct (decide (i < length sys)) as [Hlt|Hge].
  - destruct Hsys as [-> | [p ->]]; cbn in Hlt; lia.
  - rewrite lookup_app_r in Hi by lia.
    apply list_elem_of_lookup_2 in Hi.
    rewrite Forall_forall in Ht. apply Ht, dialogue_not_system in Hi. done.
Qed.

(** C7: after any sequence of text-generation calls on a fresh gateway, the
    history of a session is at most one system message followed by the turns
    of the calls made on that session, in the order of the calls; so a system
    message is at position 0 only, and every later message is a user or an
    assistant message. *)
Theorem session_history_shape (calls : list call) (sid : string)
    (h : list message) :
  conversation_history (run calls new_client) !! sid = Some h ->
  (exists sys, system_prefix sys /\ h = (sys ++ transcript sid calls)%list) /\
  Forall dialogue (transcript sid calls) /\
  (forall i m, h !! i = Some m -> role m = "system" -> i = 0) /\
  (forall i m, h !! i = Some m -> 0 < i -> dialogue m).
Proof.
  intros Hh.
  destruct (run_shape calls new_client sid [] (List.Forall_nil _))
    as (sys & Hsys & Hrun).
  { exists []. split; [by left|]. unfold history. cbn.
    by rewrite lookup_empty. }
  unfold history in Hrun. rewrite Hh in Hrun. simpl in Hrun. subst h.
  pose proof (transcript_dialogue sid calls) as Ht.
  split_and!; [by exists sys | done | |].
  - intros i m. by apply system_only_first.
  - intros i m Hi Hpos.
    destruct (decide (i < length sys)) as [Hlt|Hge].
    + destruct Hsys as [-> | [p ->]]; cbn in Hlt; lia.
    + rewrite lookup_app_r in Hi by lia.
      apply list_elem_of_lookup_2 in Hi.
      rewrite Forall_forall in Ht. by apply Ht.
Qed.

Lemma session_history_shape_witness :
  conversation_history (run sample_calls new_client) !! "default"
    = Some sample_history /\
  (forall i m, sample_history !! i = Some m -> role m = "system" -> i = 0).
Proof.
  assert (conversation_history (run sample_calls new_client) !! "default"
          = Some sample_history) as H by (vm_compute; reflexivity).
  split; [exact H|].
  exact (proj1 (proj2 (proj2 (session_history_shape _ _ _ H)))).
Defined.

(** C8: a call whose exchange fails returns a sentinel that starts with
    [Error: ]; the session then holds the old messages (after the system
    message, if this call inserted one) followed by the user message of this
    call; no assistant message with the sentinel was added, and the history is
    longer than before. *)
Theorem failed_call_keeps_user_message (self : OllamaClient)
    (prompt : string) (sp : option string) (sid : string) (e : exn) :
  let old := history self sid in
  let out := generate_response self prompt sp sid (Raise e) in
  (exists sentinel, fst out = Ok sentinel /\
     startswith "Error: " sentinel = true /\
     exists sys,
       (sys = [] \/ sys = [system_message (default EmptyString sp)]) /\
       conversation_history (snd out) !! sid
         = Some (sys ++ old ++ [user_message prompt])%list /\
       (assistant_message sentinel ∈ history (snd out) sid ->
        assistant_message sentinel ∈ old)) /\
  length old < length (history (snd out) sid) /\
  last (history (snd out) sid) = Some (user_message prompt).
Proof.
  intros old out. subst out.
  set (sentinel := response_text (Raise e)).
  assert (startswith "Error: " sentinel = true) as Hs.
  { subst sentinel. destruct e; reflexivity. }
  set (sys := if truthy sp && lacks_system old
              then [system_message (default EmptyString sp)] else []).
  assert (conversation_history
            (snd (generate_response self prompt sp sid (Raise e))) !! sid
          = Some (sys ++ old ++ [user_message prompt])%list) as Hh.
  { rewrite generate_response_history, lookup_insert_eq. subst sys old.
    unfold turn. by destruct (truthy sp && lacks_system _). }
  assert (history (snd (generate_response self prompt sp sid (Raise e))) sid
          = (sys ++ old ++ [user_message prompt])%list) as Hh'.
  { unfold history. by rewrite Hh. }
  rewrite Hh'.
  split_and!.
  - exists sentinel. split; [by rewrite generate_response_returns|].
    split; [done|]. exists sys. split_and!.
    + subst sys. destruct (_ && _); first [by right | by left].
    + done.
    + rewrite !elem_of_app, list_elem_of_singleton. intros [H | [H | H]].
      * subst sys. destruct (_ && _).
        -- apply list_elem_of_singleton in H. discriminate H.
        -- by apply elem_of_nil in H.
      * done.
      * discriminate H.
  - rewrite !length_app. cbn. lia.
  - by rewrite app_assoc, last_snoc.
Qed.

Lemma failed_call_keeps_user_message_witness :
  conversation_history
    (snd (generate_response new_client "plan the launch" (Some "be brief")
            "default" (Raise ConnectionError))) !! "default"
  = Some [system_message "be brief"; user_message "plan the launch"] /\
  last (history
          (snd (generate_response new_client "plan the launch"
                  (Some "be brief") "default" (Raise ConnectionError)))
          "default")
  = Some (user_message "plan the launch").
Proof.
  split; [vm_compute; reflexivity|].
  exact (proj2 (proj2 (failed_call_keeps_user_message new_client
    "plan the launch" (Some "be brief") "default" ConnectionError))).
Defined.

(** ** The validator *)

Lemma validated_item_title (d : dict) :
  dict_has d "title" = true ->
  title (validated_item d) = dict_get d "title".
Proof.
  unfold dict_has, title, validated_item, dict_get_default.
  cbn [dict_get]. change (String.eqb "title" "title") with true. cbv iota.
  by destruct (dict_get d "title").
Qed.

Lemma validate_menu_items_map (items : list json) :
  _validate_menu_items items = validated_item <$> titled_dicts items.
Proof.
  induction items as [|c items IH]; [done|].
  unfold titled_dicts. cbn [_validate_menu_items omap list_omap].
  fold (titled_dicts items).
  destruct c as [| | | | | |d]; try exact IH.
  destruct (dict_has d "title"); cbn; by rewrite IH.
Qed.

Lemma elem_of_titled_dicts (d : dict) (items : list json) :
  d ∈ titled_dicts items <-> JDict d ∈ items /\ dict_has d "title" = true.
Proof.
  unfold titled_dicts. rewrite list_elem_of_omap. split.
  - intros (c & Hc & Hd). destruct c; try done.
    destruct (dict_has d0 "title") eqn:E; [|done].
    injection Hd as ->. done.
  - intros [Hc Hd]. exists (JDict d). by rewrite Hd.
Qed.

(** C3 as stated fails: a candidate whose title is the empty string is
    emitted with that title. *)

Lemma validate_menu_items_empty_title :
  _validate_menu_items [JDict [("title", JStr EmptyString)]]
  = [item EmptyString "Execute this action" [] EmptyString "📋"] /\
  ~ (forall it,
       it ∈ _validate_menu_items [JDict [("title", JStr EmptyString)]] ->
       nonempty_title it).
Proof.
  split; [reflexivity|]. intros H.
  destruct (H (validated_item [("title", JStr EmptyString)])) as (c & t & Ht).
  - apply list_elem_of_singleton. reflexivity.
  - discriminate Ht.
Qed.

(** C3, amended: the validator emits one item per map-shaped candidate that
    has a title key, in order; the item carries the candidate's own title
    value; a candidate that is not map-shaped or lacks the key is skipped;
    and every emitted title is non-empty when every title value among the
    candidates is a non-empty string. *)
Theorem validate_menu_items_titles (items : list json) :
  _validate_menu_items items = validated_item <$> titled_dicts items /\
  (forall it, it ∈ _validate_menu_items items ->
     exists d, JDict d ∈ items /\ dict_has d "title" = true /\
               it = validated_item d /\ title it = dict_get d "title") /\
  (forall candidate before after,
     items = (before ++ candidate :: after)%list ->
     has_title candidate = false ->
     _validate_menu_items items =
     (_validate_menu_items before ++ _validate_menu_items after)%list) /\
  ((forall d, JDict d ∈ items ->
      dict_get d "title" = None \/
      exists c t, dict_get d "title" = Some (JStr (String c t))) ->
   forall it, it ∈ _validate_menu_items items -> nonempty_title it).
Proof.
  assert (forall it, it ∈ _validate_menu_items items ->
     exists d, JDict d ∈ items /\ dict_has d "title" = true /\
               it = validated_item d /\ title it = dict_get d "title") as Hsrc.
  { intros it. rewrite validate_menu_items_map, list_elem_of_fmap.
    intros (d & -> & Hd). apply elem_of_titled_dicts in Hd as [Hin Ht].
    exists d. split_and!; try done. by apply validated_item_title. }
  split_and!; [apply validate_menu_items_map | exact Hsrc | |].
  - intros candidate before after -> Hc.
    rewrite !validate_menu_items_map. unfold titled_dicts.
    rewrite omap_app, fmap_app. cbn [omap list_omap].
    destruct candidate as [| | | | | |d]; try done.
    cbn [has_title] in Hc. by rewrite Hc.
  - intros Hall it Hit. destruct (Hsrc it Hit) as (d & Hin & Hd & _ & Ht).
    destruct (Hall d Hin) as [Hnone | (c & t & Hsome)].
    + unfold dict_has in Hd. by rewrite Hnone in Hd.
    + exists c, t. by rewrite Ht.
Qed.

Lemma validate_menu_items_titles_witness :
  _validate_menu_items
    [JStr "Plan"; JDict [("title", JStr "Plan"); ("icon", JStr "P")];
     JDict [("prompt", JStr "no title")]; JNull]
  = [[("title", JStr "Plan"); ("prompt", JStr "Execute this action");
      ("tools", JList []); ("alt", JStr "Plan"); ("icon", JStr "P")]] /\
  nonempty_title
    [("title", JStr "Plan"); ("prompt", JStr "Execute this action");
     ("tools", JList []); ("alt", JStr "Plan"); ("icon", JStr "P")].
Proof.
  split; [reflexivity|].
  apply (proj2 (proj2 (proj2 (validate_menu_items_titles
    [JStr "Plan"; JDict [("title", JStr "Plan"); ("icon", JStr "P")];
     JDict [("prompt", JStr "no title")]; JNull])))).
  - intros d Hd. rewrite !elem_of_cons in Hd.
    destruct Hd as [Hd | [Hd | [Hd | [Hd | Hd]]]]; try discriminate Hd.
    + injection Hd as ->. right. by exists "P"%char, "lan".
    + injection Hd as ->. by left.
    + by apply elem_of_nil in Hd.
  - apply list_elem_of_singleton. reflexivity.
Defined.

(** ** The dedup filter *)

Lemma keep_new_sublist (menu_items : list dict) (completed : list string) :
  forall survivors,
    keep_new menu_items completed = Ok survivors ->
    sublist survivors menu_items.
Proof.
  induction menu_items as [|it rest IH]; intros survivors H;
    cbn [keep_new] in H.
  - injection H as <-. constructor.
  - destruct (title_lower it) as [t|]; [|done]. cbn [mbind result_bind] in H.
    destruct (keep_new rest completed) as [f|]; [|done]. cbn [mbind result_bind] in H.
    injection H as <-. specialize (IH _ eq_refl).
    destruct (is_duplicate t completed); by constructor.
Qed.

(** The survivors are the candidates no completed entry matches. *)
Lemma keep_new_survivors (menu_items : list dict) (completed : list string) :
  forall survivors it,
    keep_new menu_items completed = Ok survivors ->
    it ∈ survivors ->
    exists t, title_lower it = Ok t /\ is_duplicate t completed = false.
Proof.
  induction menu_items as [|x rest IH]; intros survivors it H Hin;
    cbn [keep_new] in H.
  - injection H as <-. by apply elem_of_nil in Hin.
  - destruct (title_lower x) as [t|] eqn:Ex; [|done]. cbn [mbind result_bind] in H.
    destruct (keep_new rest completed) as [f|]; [|done]. cbn [mbind result_bind] in H.
    injection H as <-.
    destruct (is_duplicate t completed) eqn:Ed.
    + by eapply IH.
    + apply elem_of_cons in Hin as [-> | Hin]; [by exists t | by eapply IH].
Qed.

(** The filter does not raise on items whose titles are strings. *)
Lemma keep_new_total (menu_items : list dict) (completed : list string) :
  Forall (fun it => exists s, title it = Some (JStr s) \/ title it = None)
    menu_items ->
  exists survivors, keep_new menu_items completed = Ok survivors.
Proof.
  induction 1 as [|it rest Hit _ [f IH]]; [by exists []|].
  cbn [keep_new]. unfold title_lower, dict_get_default.
  unfold title in Hit. destruct Hit as [s [-> | ->]]; cbn; rewrite IH; cbn;
    by eexists.
Qed.

Lemma progression_sublist (completed : list string) :
  sublist (_get_progression_actions completed) progression_actions.
Proof.
  unfold _get_progression_actions.
  induction progression_actions as [|a l IH]; cbn [List.filter];
    [constructor|].
  destruct (negb _); by constructor.
Qed.

Lemma filter_completed_actions_shape (menu_items : list dict)
    (completed : list string) (out : list dict) :
  completed <> [] ->
  _filter_completed_actions menu_items completed = Ok out ->
  exists survivors,
    keep_new menu_items completed = Ok survivors /\
    sublist survivors menu_items /\
    out = take 5 (survivors ++ backstop survivors completed).
Proof.
  intros Hc H. destruct completed as [|c0 cs]; [done|].
  unfold _filter_completed_actions in H.
  destruct (keep_new menu_items (c0 :: cs)) as [f|] eqn:E; [|done].
  cbn [mbind result_bind] in H. injection H as <-. exists f.
  split_and!; [done | by eapply keep_new_sublist |].
  unfold backstop. destruct (length f <? 2); [done|]. by rewrite app_nil_r.
Qed.

(** Every item of the output is a candidate or a progression action. *)
Lemma filter_completed_actions_subset (menu_items : list dict)
    (completed : list string) (out : list dict) (it : dict) :
  _filter_completed_actions menu_items completed = Ok out ->
  it ∈ out -> it ∈ menu_items \/ it ∈ progression_actions.
Proof.
  intros H Hin. destruct completed as [|c0 cs].
  - injection H as <-. by left.
  - apply filter_completed_actions_shape in H as (f & _ & Hsub & ->); [|done].
    apply elem_of_take in Hin as (i & Hin & _).
    apply list_elem_of_lookup_2 in Hin.
    apply elem_of_app in Hin as [Hin | Hin].
    + left. by eapply elem_of_sublist.
    + right. unfold backstop in Hin. destruct (_ <? _).
      * eapply elem_of_sublist; [done | apply progression_sublist].
      * by apply elem_of_nil in Hin.
Qed.

(** With a non-empty completed list the output has at most five items. *)
Lemma filter_completed_actions_length (menu_items : list dict)
    (completed : list string) (out : list dict) :
  completed <> [] ->
  _filter_completed_actions menu_items completed = Ok out ->
  length out <= 5.
Proof.
  intros Hc H.
  apply filter_completed_actions_shape in H as (f & _ & _ & ->); [|done].
  rewrite length_take. lia.
Qed.

(** C6: with completed actions [Analyzed market trends], a candidate titled
    [Analyze Competitors] is a duplicate by the stem pair analyze/analyz (the
    equality and containment rules do not match); alone it leaves the three
    progression actions; and no item with that title is in any output. *)
Theorem stem_pair_dedup :
  let completed := ["Analyzed market trends"] in
  (String.eqb "analyze competitors" "analyzed market trends" = false /\
   str_in "analyze competitors" "analyzed market trends" = false /\
   str_in "analyzed market trends" "analyze competitors" = false /\
   str_in "analyze" "analyze competitors" = true /\
   str_in "analyz" "analyzed market trends" = true) /\
  is_duplicate (lower "Analyze Competitors") completed = true /\
  (forall prompt tools alt icon,
     keep_new [item "Analyze Competitors" prompt tools alt icon] completed
       = Ok [] /\
     _filter_completed_actions
       [item "Analyze Competitors" prompt tools alt icon] completed
       = Ok progression_actions) /\
  (forall menu_items out it,
     _filter_completed_actions menu_items completed = Ok out ->
     it ∈ out -> title it <> Some (JStr "Analyze Competitors")).
Proof.
  intros completed. split_and!; try (vm_compute; reflexivity).
  - intros prompt tools alt icon. split; vm_compute; reflexivity.
  - intros menu_items out it H Hin Ht.
    apply filter_completed_actions_shape in H as (f & Hf & _ & ->); [|done].
    apply elem_of_take in Hin as (i & Hin & _).
    apply list_elem_of_lookup_2 in Hin.
    apply elem_of_app in Hin as [Hin | Hin].
    + destruct (keep_new_survivors _ _ _ _ Hf Hin) as (t & Hl & Hd).
      unfold title_lower, dict_get_default in Hl. unfold title in Ht.
      rewrite Ht in Hl. injection Hl as <-. vm_compute in Hd. discriminate Hd.
    + unfold backstop in Hin. destruct (_ <? _); [|by apply elem_of_nil in Hin].
      eapply elem_of_sublist in Hin; [|apply progression_sublist].
      unfold progression_actions in Hin. rewrite !elem_of_cons in Hin.
      destruct Hin as [-> | [-> | [-> | Hin]]];
        try (vm_compute in Ht; discriminate Ht).
      by apply elem_of_nil in Hin.
Qed.

Lemma stem_pair_dedup_witness :
  _filter_completed_actions
    [untitled "Analyze Competitors"; untitled "Book Kickoff"]
    ["Analyzed market trends"]
  = Ok (untitled "Book Kickoff" :: progression_actions) /\
  title (untitled "Book Kickoff") <> Some (JStr "Analyze Competitors").
Proof.
  assert (_filter_completed_actions
            [untitled "Analyze Competitors"; untitled "Book Kickoff"]
            ["Analyzed market trends"]
          = Ok (untitled "Book Kickoff" :: progression_actions)) as H
    by (vm_compute; reflexivity).
  split; [exact H|].
  apply (proj2 (proj2 (proj2 stem_pair_dedup)) _ _ _ H).
  apply elem_of_cons. by left.
Defined.

(** ** The orchestrator *)

Lemma generate_json_response_returns self prompt sp sid net :
  fst (generate_json_response self prompt sp sid net)
  = extract_json (response_text net).
Proof.
  unfold generate_json_response.
  destruct (generate_response _ _ _ _ _) as [r self'] eqn:E.
  pose proof (generate_response_returns self prompt
    (Some (if truthy sp
           then json_system_base ++ " " ++ default EmptyString sp
           else json_system_base)) sid net) as H.
  rewrite E in H. cbn [fst] in H. subst r. reflexivity.
Qed.

Lemma generate_json_response_model self prompt sp sid net :
  current_model (snd (generate_json_response self prompt sp sid net))
  = current_model self.
Proof.
  unfold generate_json_response.
  destruct (generate_response _ _ _ _ _) as [r self'] eqn:E.
  cbn [snd]. change self' with (snd (r, self')). rewrite <- E.
  apply generate_response_model.
Qed.

(** A sentinel does not decode: it starts with the letter E. *)
Lemma json_loads_sentinel (e : exn) :
  json_loads (response_text (Raise e)) = JSONDecodeError.
Proof.
  destruct e; vm_compute; reflexivity.
Qed.

(** After a failed exchange the structured call yields a dict. *)
Lemma extract_json_sentinel (e : exn) :
  exists d, extract_json (response_text (Raise e)) = Ok (JDict d).
Proof.
  destruct (extract_json_second_tier _ (json_loads_sentinel e))
    as [[-> _] | (g & d & _ & _ & ->)]; by eexists.
Qed.

Lemma menu_of_response_dict role context completed (d : dict) :
  menu_of_response role context completed (JDict d)
  = _generate_fallback_menu role context completed.
Proof.
  unfold menu_of_response. cbn [contains_error mbind result_bind].
  by destruct (dict_has d "error").
Qed.

(** Whatever the failure of the exchange, [generate_menu] returns the
    fallback menu. *)
Lemma generate_menu_gateway_failure self role context content node_title
    completed (e : exn) :
  fst (generate_menu self role context content node_title completed (Raise e))
  = _generate_fallback_menu role context completed.
Proof.
  unfold generate_menu.
  destruct (generate_json_response _ _ _ _ _) as [r self'] eqn:E.
  pose proof (generate_json_response_returns self
    (menu_user_prompt role context content node_title completed)
    (Some (menu_system_prompt role)) "default" (Raise e)) as H.
  rewrite E in H. cbn [fst] in H. subst r.
  destruct (extract_json_sentinel e) as [d ->].
  cbn [mbind result_bind fst]. rewrite menu_of_response_dict.
  by destruct (_generate_fallback_menu role context completed).
Qed.

Lemma item_nonempty_title t p tools alt icon c t' :
  t = String c t' -> nonempty_title (item t p tools alt icon).
Proof. intros ->. by exists c, t'. Qed.

Lemma base_actions_titles role context :
  Forall nonempty_title (base_actions role context).
Proof. repeat constructor; by eapply item_nonempty_title. Qed.

Lemma progression_actions_titles : Forall nonempty_title progression_actions.
Proof. repeat constructor; by eapply item_nonempty_title. Qed.

(** The fallback menu never raises, has at most five items, and each has a
    non-empty title. *)
Lemma generate_fallback_menu_bounds role context completed :
  exists menu,
    _generate_fallback_menu role context completed = Ok menu /\
    length menu <= 5 /\ Forall nonempty_title menu.
Proof.
  unfold _generate_fallback_menu.
  destruct (keep_new_total (base_actions role context) completed) as [f Hf].
  { eapply Forall_impl; [apply base_actions_titles|].
    intros it (c & t & Ht). exists (String c t). by left. }
  destruct completed as [|c0 cs].
  - exists (base_actions role context).
    split_and!; [done | cbn; lia | apply base_actions_titles].
  - unfold _filter_completed_actions. rewrite Hf.
    cbn [mbind result_bind]. eexists. split_and!; [done | |].
    + rewrite length_take. lia.
    + apply Forall_take.
      assert (Forall nonempty_title f) as Hfn.
      { rewrite Forall_forall. intros it Hit.
        pose proof (base_actions_titles role context) as Hb.
        rewrite Forall_forall in Hb. apply Hb.
        eapply elem_of_sublist; [done | by eapply keep_new_sublist]. }
      destruct (_ <? _); [|done].
      apply Forall_app. split; [done|].
      rewrite Forall_forall. intros it Hit.
      pose proof progression_actions_titles as Hp.
      rewrite Forall_forall in Hp. apply Hp.
      eapply elem_of_sublist; [done | apply progression_sublist].
Qed.

(** C1 (fails on the code): when the exchange fails and the completed
    actions name every title of the fallback and progression catalogues,
    [generate_menu] returns the empty menu; when they name all but the last
    title, a menu of one item. *)
Theorem generate_menu_fallback_can_be_empty (self : OllamaClient)
    (role context content node_title : string) :
  fst (generate_menu self role context content node_title
         all_catalogue_titles (Raise ConnectionError)) = Ok [] /\
  fst (generate_menu self role context content node_title
         all_catalogue_titles (Raise Timeout)) = Ok [] /\
  (exists it,
     fst (generate_menu self role context content node_title
            (removelast all_catalogue_titles) (Raise ConnectionError))
     = Ok [it]).
Proof.
  rewrite !generate_menu_gateway_failure.
  split_and!; [vm_compute; reflexivity | vm_compute; reflexivity |].
  eexists. vm_compute. reflexivity.
Qed.

Lemma generate_next_actions_returns self role previous_result net :
  fst (_generate_next_actions self role previous_result net)
  = match extract_json (response_text net) with
    | Ok (JList l) => take 3 l
    | _ => default_next_actions
    end.
Proof.
  unfold _generate_next_actions.
  destruct (generate_json_response _ _ _ _ _) as [r self'] eqn:E.
  pose proof (generate_json_response_returns self
    (next_actions_user_prompt role previous_result)
    (Some next_actions_system_prompt) "default" net) as H.
  rewrite E in H. cbn [fst] in H. by subst r.
Qed.

Lemma generate_next_actions_model self role previous_result net :
  current_model (snd (_generate_next_actions self role previous_result net))
  = current_model self.
Proof.
  unfold _generate_next_actions.
  destruct (generate_json_response _ _ _ _ _) as [r self'] eqn:E.
  cbn [snd]. change self' with (snd (r, self')). rewrite <- E.
  apply generate_json_response_model.
Qed.

(** The result of [execute_action], whatever the two exchanges did. *)
Lemma execute_action_returns self action_id context user_input net net2 :
  fst (execute_action self action_id context user_input net net2)
  = {| result_content := response_text net;
       next_actions :=
         match extract_json (response_text net2) with
         | Ok (JList l) => take 3 l
         | _ => default_next_actions
         end;
       executed_at := "now";
       model_used := current_model self |}.
Proof.
  unfold execute_action.
  destruct (generate_response _ _ _ _ _) as [r self1] eqn:E1.
  pose proof (generate_response_returns self
    (execute_user_prompt (context_get context "action_prompt" EmptyString)
       (context_get context "context" EmptyString) user_input)
    (Some (execute_system_prompt (context_get context "role" "General User")
             (context_get context "parent_content" EmptyString)))
    "default" net) as Hr.
  pose proof (generate_response_model self
    (execute_user_prompt (context_get context "action_prompt" EmptyString)
       (context_get context "context" EmptyString) user_input)
    (Some (execute_system_prompt (context_get context "role" "General User")
             (context_get context "parent_content" EmptyString)))
    "default" net) as Hm.
  rewrite E1 in Hr, Hm. cbn [fst snd] in Hr, Hm. subst r.
  destruct (_generate_next_actions _ _ _ _) as [na self2] eqn:E2.
  pose proof (generate_next_actions_returns self1
    (context_get context "role" "General User") (response_text net) net2) as Hn.
  pose proof (generate_next_actions_model self1
    (context_get context "role" "General User") (response_text net) net2) as Hm2.
  rewrite E2 in Hn, Hm2. cbn [fst snd] in Hn, Hm2. subst na.
  cbn [fst]. by rewrite Hm2, Hm.
Qed.

(** C4 (fails on the code): with no completed action the filter returns
    its input as it is, here six candidates, although with one completed
    action that matches none of them it returns the first five.
    [generate_menu] then returns six items when the model replies with six
    candidates and no action is completed. *)
Theorem filter_completed_actions_uncapped :
  _filter_completed_actions six_candidates [] = Ok six_candidates /\
  length six_candidates = 6 /\
  _filter_completed_actions six_candidates ["Kickoff held"]
    = Ok (take 5 six_candidates) /\
  fst (generate_menu new_client "analyst" "product launch" EmptyString
         "Start" [] (Ok six_candidates_reply))
    = Ok six_candidates.
Proof. split_and!; vm_compute; reflexivity. Qed.

(** C2 (fails on the code): when the primary exchange fails,
    [execute_action] returns the sentinel as content, next actions that come
    from the secondary call (the three default titles when that exchange
    fails too) and the name of the current model as the model identifier,
    not the handler's result with no next action and the model [error]. *)
Theorem execute_action_failure_not_flagged (self : OllamaClient)
    (action_id : string) (context : list (string * string))
    (user_input : string) (e e2 : exn) (net2 : exchange) :
  model_used
    (fst (execute_action self action_id context user_input (Raise e) net2))
  = current_model self /\
  fst (execute_action self action_id context user_input (Raise e) (Raise e2))
  = {| result_content := response_text (Raise e);
       next_actions := default_next_actions;
       executed_at := "now";
       model_used := current_model self |} /\
  fst (execute_action new_client action_id context user_input
         (Raise ConnectionError) (Raise ConnectionError))
  = {| result_content := connection_sentinel;
       next_actions :=
         [JStr "Review Results"; JStr "Continue Planning"; JStr "Next Phase"];
       executed_at := "now";
       model_used := "danielsheep/Qwen3-Coder-30B-A3B-Instruct-1M-Unsloth" |}.
Proof.
  rewrite !execute_action_returns.
  destruct (extract_json_sentinel e2) as [d ->].
  split_and!; reflexivity.
Qed.


Example next_actions_not_padded :
  next_actions
    (fst (execute_action new_client "a1" [("role", "analyst")] "go"
            (Ok "Report ready.")
            (Ok ("[" ++ dq ++ "Share Findings" ++ dq ++ ", "
                     ++ dq ++ "Archive" ++ dq ++ "]"))))
  = [JStr "Share Findings"; JStr "Archive"] /\
  next_actions
    (fst (execute_action new_client "a1" [("role", "analyst")] "go"
            (Ok "Report ready.") (Ok "[1, 2, 3, 4]")))
  = [JInt 1; JInt 2; JInt 3] /\
  next_actions
    (fst (execute_action new_client "a1" [("role", "analyst")] "go"
            (Ok "Report ready.") (Ok "Share the findings")))
  = default_next_actions.
Proof. split_and!; vm_compute; reflexivity. Qed.

(** * Further properties of the code *)

(** ** More on the gateway's sessions *)

(** The stored list of every session after a call. *)
Lemma generate_response_lookup self prompt sp sid net sid' :
  conversation_history (snd (generate_response self prompt sp sid net)) !! sid'
  = if decide (sid = sid')
    then Some (inserted_system sp (history self sid) ++ history self sid
               ++ turn prompt net)%list
    else conversation_history self !! sid'.
Proof.
  rewrite generate_response_history, lookup_insert.
  destruct (decide (sid = sid')); [|done].
  unfold inserted_system. by destruct (truthy sp && lacks_system _).
Qed.

Lemma generate_response_history_of self prompt sp sid net :
  history (snd (generate_response self prompt sp sid net)) sid
  = (inserted_system sp (history self sid) ++ history self sid
     ++ turn prompt net)%list.
Proof.
  unfold history at 1. rewrite generate_response_lookup.
  by destruct (decide (sid = sid)).
Qed.

Lemma do_call_lookup (self : OllamaClient) (c : call) (sid : string) :
  conversation_history (do_call self c) !! sid
  = if decide (call_session c = sid)
    then Some (inserted_system (call_system c) (history self (call_session c))
               ++ history self (call_session c)
               ++ turn (call_prompt c) (call_net c))%list
    else conversation_history self !! sid.
Proof. apply generate_response_lookup. Qed.

(** Two clients that store the same list for a session still do after the
    same call. *)
Lemma do_call_agree (self1 self2 : OllamaClient) (c : call) (sid : string) :
  conversation_history self1 !! sid = conversation_history self2 !! sid ->
  conversation_history (do_call self1 c) !! sid
  = conversation_history (do_call self2 c) !! sid.
Proof.
  intros H. rewrite !do_call_lookup.
  destruct (decide (call_session c = sid)) as [->|]; [|done].
  unfold history. by rewrite H.
Qed.

Lemma run_agree (calls : list call) :
  forall (self1 self2 : OllamaClient) (sid : string),
    conversation_history self1 !! sid = conversation_history self2 !! sid ->
    conversation_history (run calls self1) !! sid
    = conversation_history (run calls self2) !! sid.
Proof.
  induction calls as [|c calls IH]; intros self1 self2 sid H; [done|].
  cbn [run fold_left]. apply IH. by apply do_call_agree.
Qed.

(** X1: the history of a session depends on the calls made on that session
    only: calls on other sessions can be left out without changing it, and a
    call on one session leaves the stored list of every other session as it
    is. *)
Theorem session_isolation (calls : list call) (self : OllamaClient)
    (sid : string) :
  conversation_history (run calls self) !! sid
  = conversation_history (run (calls_on sid calls) self) !! sid /\
  (forall c, call_session c <> sid ->
     conversation_history (do_call self c) !! sid
     = conversation_history self !! sid).
Proof.
  split.
  - revert self. induction calls as [|c calls IH]; intros self; [done|].
    cbn [run fold_left calls_on List.filter].
    fold (run calls (do_call self c)). fold (calls_on sid calls).
    destruct (String.eqb_spec (call_session c) sid) as [Heq|Hne].
    + cbn [run fold_left]. apply IH.
    + rewrite IH. apply run_agree. rewrite do_call_lookup.
      by destruct (decide (call_session c = sid)).
  - intros c Hne. rewrite do_call_lookup.
    by destruct (decide (call_session c = sid)).
Qed.

(** X2: a session keeps the first system message it got.  When the stored
    list starts with a system message, a call only appends its turn, whatever
    system prompt it brings; otherwise a non-empty system prompt is put in
    front of the older messages. *)
Theorem system_prompt_set_once (self : OllamaClient) (prompt p : string)
    (sp : option string) (sid : string) (net : exchange)
    (m : message) (rest : list message) :
  history self sid = m :: rest ->
  (role m = "system" ->
   history (snd (generate_response self prompt sp sid net)) sid
   = (m :: rest ++ turn prompt net)%list) /\
  (role m <> "system" -> sp = Some p -> p <> EmptyString ->
   history (snd (generate_response self prompt sp sid net)) sid
   = (system_message p :: m :: rest ++ turn prompt net)%list).
Proof.
  intros Hh. rewrite generate_response_history_of, Hh.
  unfold inserted_system. cbn [lacks_system]. split.
  - intros ->. cbn. by rewrite andb_false_r.
  - intros Hm -> Hp. destruct p as [|c p]; [done|]. cbn [truthy andb].
    by destruct (String.eqb_spec (role m) "system").
Qed.

Lemma system_prompt_set_once_witness :
  history
    (snd (generate_response
            (snd (generate_response new_client "first" (Some "be brief")
                    "default" (Ok "one")))
            "second" (Some "be verbose") "default" (Ok "two")))
    "default"
  = [system_message "be brief"; user_message "first"; assistant_message "one";
     user_message "second"; assistant_message "two"].
Proof.
  assert (history (snd (generate_response new_client "first"
                          (Some "be brief") "default" (Ok "one"))) "default"
          = system_message "be brief"
            :: [user_message "first"; assistant_message "one"]) as H
    by (vm_compute; reflexivity).
  exact (proj1 (system_prompt_set_once _ "second" "be verbose"
                  (Some "be verbose") "default" (Ok "two") _ _ H) eq_refl).
Defined.

Lemma length_turn prompt net : 1 <= length (turn prompt net) <= 2.
Proof. unfold turn. destruct net; cbn; lia. Qed.

Lemma length_inserted_system sp old : length (inserted_system sp old) <= 1.
Proof. unfold inserted_system. destruct (_ && _); cbn; lia. Qed.

Lemma run_growth (calls : list call) (sid : string) :
  Forall (fun c => call_session c = sid) calls ->
  forall self,
    let n := length calls in
    length (history self sid) + n <= length (history (run calls self) sid) /\
    length (history (run calls self) sid) <= length (history self sid) + 2 * n + 1 /\
    (lacks_system (history self sid) = false ->
     length (history (run calls self) sid) <= length (history self sid) + 2 * n).
Proof.
  induction 1 as [|c calls Hc _ IH]; intros self; cbn zeta.
  - cbn. split_and!; lia.
  - cbn [run fold_left length]. fold (run calls (do_call self c)).
    specialize (IH (do_call self c)). cbn zeta in IH.
    assert (history (do_call self c) sid
            = (inserted_system (call_system c) (history self sid)
               ++ history self sid
               ++ turn (call_prompt c) (call_net c))%list) as Hd.
    { unfold do_call. rewrite <- Hc. apply generate_response_history_of. }
    assert (lacks_system (history (do_call self c) sid) = false \/
            inserted_system (call_system c) (history self sid) = []) as Hsys.
    { rewrite Hd. unfold inserted_system.
      destruct (truthy (call_system c) && lacks_system (history self sid));
        [left; reflexivity | by right]. }
    assert (lacks_system (history self sid) = false ->
            lacks_system (history (do_call self c) sid) = false /\
            inserted_system (call_system c) (history self sid) = []) as Hkeep.
    { intros Hl. rewrite Hd. unfold inserted_system. rewrite Hl, andb_false_r.
      split; [|done]. cbn [app].
      destruct (history self sid); [discriminate Hl | exact Hl]. }
    pose proof (length_turn (call_prompt c) (call_net c)) as Ht.
    pose proof (length_inserted_system (call_system c) (history self sid)) as Hi.
    destruct IH as (IH1 & IH2 & IH3).
    assert (length (history (do_call self c) sid)
            = length (inserted_system (call_system c) (history self sid))
              + (length (history self sid)
                 + length (turn (call_prompt c) (call_net c)))) as Hlen
      by (by rewrite Hd, !length_app).
    rewrite Hlen in IH1, IH2, IH3.
    split_and!.
    + lia.
    + destruct Hsys as [Hl | Hnil].
      * specialize (IH3 Hl). lia.
      * rewrite Hnil in *. cbn [length] in *. lia.
    + intros Hl. destruct (Hkeep Hl) as [Hl' Hnil].
      specialize (IH3 Hl'). rewrite Hnil in *. cbn [length] in *. lia.
Qed.

(** X3: a session only grows: after a sequence of calls its history has at
    least one message more per call made on it, and at most two more per
    call plus one system message. *)
Theorem session_growth (calls : list call) (self : OllamaClient)
    (sid : string) :
  let n := length (calls_on sid calls) in
  length (history self sid) + n <= length (history (run calls self) sid) /\
  length (history (run calls self) sid) <= length (history self sid) + 2 * n + 1 /\
  (lacks_system (history self sid) = false ->
   length (history (run calls self) sid) <= length (history self sid) + 2 * n).
Proof.
  assert (history (run calls self) sid
          = history (run (calls_on sid calls) self) sid) as ->.
  { unfold history. by rewrite (proj1 (session_isolation calls self sid)). }
  apply run_growth. unfold calls_on. rewrite Forall_forall. intros c Hc.
  apply list_elem_of_In, filter_In in Hc as [_ Hc].
  by apply String.eqb_eq.
Qed.

Lemma session_growth_witness :
  length (history new_client "default") + 3
    <= length (history (run sample_calls new_client) "default") /\
  length (history (run sample_calls new_client) "default") = 6.
Proof.
  split; [|vm_compute; reflexivity].
  exact (proj1 (session_growth sample_calls new_client "default")).
Defined.

(** X4: clearing a session removes its stored list and no other; the next
    call on it starts over, with its own system prompt in front, whatever the
    session held before; clearing a session that is not there changes
    nothing. *)
Theorem clear_conversation_restarts (self : OllamaClient) (sid : string)
    (prompt : string) (sp : option string) (net : exchange) :
  conversation_history (clear_conversation self sid) !! sid = None /\
  (forall sid', sid' <> sid ->
     conversation_history (clear_conversation self sid) !! sid'
     = conversation_history self !! sid') /\
  history (snd (generate_response (clear_conversation self sid)
                  prompt sp sid net)) sid
  = ((if truthy sp then [system_message (default EmptyString sp)] else [])
     ++ turn prompt net)%list /\
  (conversation_history self !! sid = None ->
   clear_conversation self sid = self).
Proof.
  split_and!.
  - apply lookup_delete_eq.
  - intros sid' Hne. by apply lookup_delete_ne.
  - rewrite generate_response_history_of. unfold history, clear_conversation.
    cbn [conversation_history]. rewrite lookup_delete_eq. cbn [default].
    unfold inserted_system. cbn [lacks_system]. by rewrite andb_true_r.
  - intros Hnone. destruct self as [cm ch]. unfold clear_conversation.
    cbn in *. f_equal. by apply delete_id.
Qed.

(** ** The summary of a session *)

Lemma get_conversation_summary_known self sid h :
  conversation_history self !! sid = Some h ->
  get_conversation_summary self sid
  = ({| summary_session_id := sid;
        message_count := length h;
        has_system_prompt := negb (lacks_system h);
        last_user_message := last_with_role "user" h;
        last_assistant_message := last_with_role "assistant" h |}, self).
Proof.
  intros H. unfold get_conversation_summary, get_or_create_conversation.
  rewrite H. f_equal. f_equal. destruct h as [|m h]; [done|].
  cbn. by rewrite negb_involutive.
Qed.

(** X5: asking for the summary of a session that does not exist creates it:
    the summary counts no message and the client then stores the empty list
    for the session, while the other sessions and the model are as before. *)
Theorem get_conversation_summary_creates (self : OllamaClient) (sid : string) :
  conversation_history self !! sid = None ->
  fst (get_conversation_summary self sid)
  = {| summary_session_id := sid; message_count := 0;
       has_system_prompt := false;
       last_user_message := None; last_assistant_message := None |} /\
  conversation_history (snd (get_conversation_summary self sid))
  = <[sid := []]> (conversation_history self) /\
  snd (get_conversation_summary self sid) <> self /\
  current_model (snd (get_conversation_summary self sid)) = current_model self.
Proof.
  intros H. unfold get_conversation_summary, get_or_create_conversation.
  rewrite H. split_and!; try reflexivity.
  cbn [snd]. intros Heq.
  assert (conversation_history (store self sid []) !! sid = None) as Hn
    by (by rewrite Heq).
  cbn in Hn. by rewrite lookup_insert_eq in Hn.
Qed.

Lemma get_conversation_summary_creates_witness :
  conversation_history (snd (get_conversation_summary new_client "default"))
  = <[ "default" := [] ]> (conversation_history new_client).
Proof.
  exact (proj1 (proj2 (get_conversation_summary_creates new_client "default"
                         (lookup_empty _)))).
Defined.

Lemma last_with_role_snoc r (h : list message) (m : message) :
  last_with_role r (h ++ [m])
  = if String.eqb (role m) r
    then Some (first_chars 100 (content m) ++ "...")
    else last_with_role r h.
Proof.
  unfold last_with_role. rewrite rev_app_distr. cbn [rev app find].
  by destruct (String.eqb (role m) r).
Qed.

Lemma last_with_role_cons r (m : message) (h : list message) :
  String.eqb (role m) r = false ->
  last_with_role r (m :: h) = last_with_role r h.
Proof.
  intros Hm. unfold last_with_role. cbn [rev].
  induction (rev h) as [|x l IH]; cbn [app find].
  - by rewrite Hm.
  - by destruct (String.eqb (role x) r).
Qed.

Lemma last_with_role_inserted r sp (old rest : list message) :
  String.eqb "system" r = false ->
  last_with_role r (inserted_system sp old ++ rest) = last_with_role r rest.
Proof.
  intros Hr. unfold inserted_system. destruct (_ && _); [|done].
  cbn [app]. by apply last_with_role_cons.
Qed.

(** On ASCII text a character is a byte. *)
Lemma first_chars_ascii (n : nat) (s : string) :
  isascii s = true -> first_chars n s = str_take n s.
Proof.
  revert n. induction s as [|c s IH]; intros n H; [by destruct n|].
  cbn [isascii] in H. apply andb_prop in H as [Hc Hs].
  cbn [first_chars]. unfold is_continuation.
  apply Nat.ltb_lt in Hc.
  destruct (128 <=? code c) eqn:E; [apply Nat.leb_le in E; lia|].
  cbn [andb]. destruct n as [|n]; [done|].
  cbn [str_take]. by rewrite IH.
Qed.

(** Sixty times the two-byte letter e-acute is kept whole by a cut at 100
    characters, where a cut at 100 bytes keeps fifty of them. *)
Lemma first_chars_code_points :
  let e_acute := String (ascii_of_nat 195) (String (ascii_of_nat 169) EmptyString) in
  first_chars 100 (str_repeat e_acute 60) = str_repeat e_acute 60 /\
  str_take 100 (str_repeat e_acute 60) = str_repeat e_acute 50 /\
  first_chars 2 (str_repeat e_acute 60) = str_repeat e_acute 2.
Proof. split_and!; vm_compute; reflexivity. Qed.

(** X6: right after a call on a session, the summary of that session leaves
    the client as it is and counts every stored message, more than before
    the call.  Its last user message is the first 100 characters of the
    call's prompt followed by three dots.  When the exchange succeeded, its
    last assistant message is the text the call returned, which is the last
    message of the session, cut in the same way; when the exchange failed,
    it is what it was before the call.  A non-empty system prompt of the
    call makes the summary report a system prompt. *)
Theorem get_conversation_summary_after_call (self : OllamaClient)
    (prompt : string) (sp : option string) (sid : string) (net : exchange) :
  let self' := snd (generate_response self prompt sp sid net) in
  let summary := fst (get_conversation_summary self' sid) in
  snd (get_conversation_summary self' sid) = self' /\
  message_count summary = length (history self' sid) /\
  length (history self sid) < message_count summary /\
  last_user_message summary = Some (first_chars 100 prompt ++ "...") /\
  (forall reply, net = Ok reply ->
     exists returned,
       fst (generate_response self prompt sp sid net) = Ok returned /\
       last (history self' sid) = Some (assistant_message returned) /\
       last_assistant_message summary
       = Some (first_chars 100 returned ++ "...")) /\
  (forall e, net = Raise e ->
     last_assistant_message summary
     = last_with_role "assistant" (history self sid)) /\
  (truthy sp = true -> has_system_prompt summary = true).
Proof.
  intros self' summary. subst summary.
  assert (conversation_history self' !! sid
          = Some (inserted_system sp (history self sid) ++ history self sid
                  ++ turn prompt net)%list) as Hl.
  { subst self'. rewrite generate_response_lookup.
    by destruct (decide (sid = sid)). }
  rewrite (get_conversation_summary_known _ _ _ Hl).
  cbn [fst snd message_count last_user_message last_assistant_message
       has_system_prompt].
  assert (history self' sid
          = (inserted_system sp (history self sid) ++ history self sid
             ++ turn prompt net)%list) as Hh
    by (unfold history at 1; by rewrite Hl).
  pose proof (length_turn prompt net) as Ht.
  split_and!.
  - done.
  - by rewrite Hh.
  - rewrite !length_app. lia.
  - rewrite last_with_role_inserted by done. unfold turn.
    destruct net as [reply|e].
    + change (user_message prompt :: [assistant_message (strip reply)])
        with ([user_message prompt] ++ [assistant_message (strip reply)])%list.
      rewrite !app_assoc, last_with_role_snoc. cbn [role assistant_message].
      change (String.eqb "assistant" "user") with false. cbv iota.
      by rewrite last_with_role_snoc.
    + by rewrite last_with_role_snoc.
  - intros reply ->. exists (strip reply). split_and!.
    + by rewrite generate_response_returns.
    + rewrite Hh. unfold turn.
      change (user_message prompt :: [assistant_message (strip reply)])
        with ([user_message prompt] ++ [assistant_message (strip reply)])%list.
      by rewrite !app_assoc, last_snoc.
    + rewrite last_with_role_inserted by done. unfold turn.
      change (user_message prompt :: [assistant_message (strip reply)])
        with ([user_message prompt] ++ [assistant_message (strip reply)])%list.
      by rewrite !app_assoc, last_with_role_snoc.
  - intros e ->. rewrite last_with_role_inserted by done. unfold turn.
    by rewrite last_with_role_snoc.
  - intros Hsp. unfold inserted_system. rewrite Hsp. cbn [andb].
    destruct (lacks_system (history self sid)) eqn:E; [done|].
    cbn [app]. destruct (history self sid) as [|m h]; [done|].
    cbn [app lacks_system] in *. by rewrite E.
Qed.

(** ** The listing of the models *)

Lemma model_entry_listed (model : json) :
  well_named model -> model_entry model = Ok (listed model).
Proof.
  intros (m & name & -> & Hn). unfold model_entry, listed, dict_get_default.
  by rewrite Hn.
Qed.

Lemma model_entry_Ok (model : json) (e : dict) :
  model_entry model = Ok e -> well_named model.
Proof.
  unfold model_entry. destruct model as [| | | | | |m]; try done.
  destruct (dict_get m "name") as [name|] eqn:E; [|done].
  intros _. by exists m, name.
Qed.

Lemma model_entries_Ok (models : list json) (entries : list dict) :
  model_entries models = Ok entries <->
  Forall well_named models /\ entries = listed <$> models.
Proof.
  revert entries. induction models as [|model rest IH]; intros entries;
    cbn [model_entries].
  - split; [intros [= <-]; by split | by intros [_ ->]].
  - split.
    + destruct (model_entry model) as [e|] eqn:E; [|done].
      cbn [mbind result_bind].
      destruct (model_entries rest) as [es|] eqn:Es; [|done].
      cbn [mbind result_bind]. intros [= <-].
      destruct (proj1 (IH es) eq_refl) as [Hall ->].
      pose proof (model_entry_Ok _ _ E) as Hw.
      rewrite (model_entry_listed _ Hw) in E. injection E as <-.
      split; [by constructor | done].
    + intros [Hall ->]. apply Forall_cons in Hall as [Hw Hall].
      rewrite (model_entry_listed _ Hw). cbn [mbind result_bind].
      rewrite (proj2 (IH _) (conj Hall eq_refl)). done.
Qed.

(** The listing is empty unless the body is a dict whose [models] entry is
    a list. *)
Lemma list_models_not_a_list (net : listing) :
  (forall d l, net = Ok (JDict d) ->
     dict_get_default d "models" (JList []) <> JList l) ->
  list_models net = [].
Proof.
  intros H. unfold list_models.
  destruct net as [data|e]; [|done]. cbn [mbind result_bind].
  destruct data as [| | | | | |d]; try done.
  cbn [models_of mbind result_bind].
  specialize (H d). destruct (dict_get_default d "models" (JList [])) as
    [| | | |s|l|d']; try done.
  - cbn [iterate mbind result_bind].
    destruct (list_ascii_of_string s) as [|c cs]; done.
  - by specialize (H l eq_refl).
  - cbn [iterate mbind result_bind]. destruct d' as [|kv d']; done.
Qed.

(** X7: [list_models] is all or nothing.  When the body is a dict whose
    [models] entry is a list of dicts that all have a name, it returns one
    entry per model, in order, with the model's name and with 0 and the empty
    string where the size and the date are missing; when one element of the
    list is not a dict with a name, it returns the empty list, whatever the
    other elements are. *)
Theorem list_models_all_or_nothing (d : dict) (l : list json) :
  dict_get_default d "models" (JList []) = JList l ->
  (Forall well_named l -> list_models (Ok (JDict d)) = listed <$> l) /\
  (forall model, model ∈ l -> ~ well_named model ->
     list_models (Ok (JDict d)) = []).
Proof.
  intros Hl. unfold list_models.
  cbn [mbind result_bind models_of]. rewrite Hl.
  cbn [iterate mbind result_bind]. split.
  - intros Hall. by rewrite (proj2 (model_entries_Ok l _) (conj Hall eq_refl)).
  - intros model Hin Hbad.
    destruct (model_entries l) as [es|] eqn:E; [|done].
    apply model_entries_Ok in E as [Hall _].
    rewrite Forall_forall in Hall. by specialize (Hall _ Hin).
Qed.

Lemma list_models_all_or_nothing_witness :
  list_models
    (Ok (JDict [("models",
                 JList [JDict [("name", JStr "qwen3:30b"); ("size", JInt 17)];
                        JDict [("name", JStr "polaris:latest")]])]))
  = [[("name", JStr "qwen3:30b"); ("size", JInt 17);
      ("modified_at", JStr EmptyString)];
     [("name", JStr "polaris:latest"); ("size", JInt 0);
      ("modified_at", JStr EmptyString)]] /\
  list_models
    (Ok (JDict [("models",
                 JList [JDict [("name", JStr "qwen3:30b"); ("size", JInt 17)];
                        JDict [("size", JInt 3)]])]))
  = [].
Proof.
  split.
  - apply (proj1 (list_models_all_or_nothing
             [("models",
               JList [JDict [("name", JStr "qwen3:30b"); ("size", JInt 17)];
                      JDict [("name", JStr "polaris:latest")]])]
             [JDict [("name", JStr "qwen3:30b"); ("size", JInt 17)];
              JDict [("name", JStr "polaris:latest")]] eq_refl)).
    repeat constructor; eexists _, _; split; reflexivity.
  - apply (proj2 (list_models_all_or_nothing
             [("models",
               JList [JDict [("name", JStr "qwen3:30b"); ("size", JInt 17)];
                      JDict [("size", JInt 3)]])]
             [JDict [("name", JStr "qwen3:30b"); ("size", JInt 17)];
              JDict [("size", JInt 3)]] eq_refl)
             (JDict [("size", JInt 3)])).
    + apply elem_of_cons. right. apply elem_of_cons. by left.
    + intros (m & name & [= <-] & Hn). discriminate Hn.
Defined.

(** X8: [is_model_available] answers yes exactly when no event loop is
    running, the listing succeeded as a whole, and one model of the listing
    has the asked name as a string. *)
Theorem is_model_available_spec (loop_running : bool) (model_name : string)
    (net : listing) :
  is_model_available loop_running model_name net = true <->
  loop_running = false /\
  exists d l m,
    net = Ok (JDict d) /\
    dict_get_default d "models" (JList []) = JList l /\
    Forall well_named l /\
    JDict m ∈ l /\ dict_get m "name" = Some (JStr model_name).
Proof.
  unfold is_model_available. split.
  - destruct loop_running; [done|]. intros H. split; [done|].
    apply existsb_exists in H as (e & He & Hn).
    destruct net as [data|ex]; [|done].
    destruct data as [| | | | | |d]; try done.
    destruct (dict_get_default d "models" (JList [])) as [| | | |s|l|d'] eqn:Ev.
    1-5,7: rewrite list_models_not_a_list in He;
      [done | intros d0 l0 [= <-]; by rewrite Ev].
    unfold list_models in He. cbn [mbind result_bind models_of] in He.
    rewrite Ev in He. cbn [iterate mbind result_bind] in He.
    destruct (model_entries l) as [es|] eqn:E; [|done].
    apply model_entries_Ok in E as [Hall ->].
    apply list_elem_of_In, list_elem_of_fmap in He as (model & -> & Hin).
    rewrite Forall_forall in Hall.
    destruct (Hall _ Hin) as (m & name & -> & Hname).
    exists d, l, m. split_and!; try done; [by apply Forall_forall|].
    unfold named, listed, dict_get_default in Hn. cbn [dict_get] in Hn.
    change (String.eqb "name" "name") with true in Hn. cbv iota in Hn.
    rewrite Hname in *. destruct name; try done.
    by apply String.eqb_eq in Hn as ->.
  - intros [-> (d & l & m & -> & Hl & Hall & Hin & Hname)].
    rewrite (proj1 (list_models_all_or_nothing d l Hl) Hall).
    apply existsb_exists. exists (listed (JDict m)). split.
    + apply list_elem_of_In, list_elem_of_fmap. by exists (JDict m).
    + unfold named, listed, dict_get_default. cbn [dict_get].
      change (String.eqb "name" "name") with true. cbv iota.
      rewrite Hname. apply String.eqb_refl.
Qed.

(** ** More on the validator and the dedup filter *)

Lemma validated_item_canonical (d : dict) : canonical (validated_item d).
Proof. reflexivity. Qed.

Lemma item_canonical t p tools alt icon : canonical (item t p tools alt icon).
Proof. reflexivity. Qed.

Lemma validate_menu_items_canonical (items : list json) :
  Forall canonical (_validate_menu_items items).
Proof.
  rewrite validate_menu_items_map, Forall_fmap, Forall_forall.
  intros d _. apply validated_item_canonical.
Qed.

Lemma base_actions_canonical role context :
  Forall canonical (base_actions role context).
Proof. repeat constructor. Qed.

Lemma progression_actions_canonical : Forall canonical progression_actions.
Proof. repeat constructor. Qed.

(** A canonical item is its own validation. *)
Lemma validated_item_fixpoint (it : dict) :
  canonical it -> validated_item it = it.
Proof.
  unfold canonical, five_keys. intros H.
  destruct it as [|[k1 v1] [|[k2 v2] [|[k3 v3] [|[k4 v4] [|[k5 v5] [|]]]]]];
    try discriminate H.
  cbn in H. injection H as -> -> -> -> ->. reflexivity.
Qed.

Lemma canonical_has_title (it : dict) : canonical it -> dict_has it "title" = true.
Proof.
  unfold canonical, five_keys. intros H.
  destruct it as [|[k1 v1] it]; [discriminate H|].
  cbn in H. injection H as -> _. reflexivity.
Qed.

(** X9: validation is idempotent: validating the items the validator
    returned, or any items that have exactly the five keys, returns them
    unchanged. *)
Theorem validate_menu_items_idempotent (items : list json) (menu : list dict) :
  _validate_menu_items (JDict <$> _validate_menu_items items)
  = _validate_menu_items items /\
  (Forall canonical menu -> _validate_menu_items (JDict <$> menu) = menu).
Proof.
  assert (forall menu, Forall canonical menu ->
            _validate_menu_items (JDict <$> menu) = menu) as H.
  { clear. induction 1 as [|it menu Hit _ IH]; [done|].
    cbn [fmap list_fmap _validate_menu_items].
    rewrite (canonical_has_title _ Hit), (validated_item_fixpoint _ Hit).
    f_equal. exact IH. }
  split; [|apply H]. apply H, validate_menu_items_canonical.
Qed.

(** X10: the output of the filter is a subsequence of the candidates followed
    by the progression catalogue: order is kept, candidates come first, and
    nothing else is ever added; with a non-empty completed list it has at
    most five items. *)
Theorem filter_completed_actions_order (menu_items : list dict)
    (completed : list string) (out : list dict) :
  _filter_completed_actions menu_items completed = Ok out ->
  sublist out (menu_items ++ progression_actions)%list /\
  (forall it, it ∈ out -> it ∈ menu_items \/ it ∈ progression_actions) /\
  (completed <> [] -> length out <= 5) /\
  (completed = [] -> out = menu_items).
Proof.
  intros H.
  assert (sublist out (menu_items ++ progression_actions)%list) as Hsub.
  { destruct completed as [|c0 cs].
    - injection H as <-. by apply sublist_inserts_r.
    - apply filter_completed_actions_shape in H as (f & _ & Hf & ->); [|done].
      etrans; [apply sublist_take|]. apply sublist_app; [done|].
      unfold backstop. destruct (_ <? _);
        [apply progression_sublist | apply sublist_nil_l]. }
  split_and!; [done | | |].
  - intros it Hit. apply elem_of_app. by eapply elem_of_sublist.
  - intros Hc.
    apply filter_completed_actions_shape in H as (f & _ & _ & ->); [|done].
    rewrite length_take. lia.
  - intros ->. by injection H as <-.
Qed.

Lemma filter_completed_actions_order_witness :
  sublist
    (untitled "Book Kickoff" :: progression_actions)
    ([untitled "Analyze Competitors"; untitled "Book Kickoff"]
     ++ progression_actions)%list.
Proof.
  exact (proj1 (filter_completed_actions_order
                  [untitled "Analyze Competitors"; untitled "Book Kickoff"]
                  ["Analyzed market trends"]
                  (untitled "Book Kickoff" :: progression_actions)
                  ltac:(vm_compute; reflexivity))).
Defined.

Lemma existsb_false_elem {A} (f : A -> bool) (l : list A) (x : A) :
  existsb f l = false -> x ∈ l -> f x = false.
Proof.
  intros H Hx. destruct (f x) eqn:E; [|done].
  rewrite <- H. symmetry. apply existsb_exists. exists x.
  split; [by apply list_elem_of_In | done].
Qed.

Lemma isascii_lower (s : string) : isascii (lower s) = isascii s.
Proof.
  induction s as [|c s IH]; [done|].
  cbn [lower isascii]. rewrite IH. f_equal.
  unfold lower_char. destruct (is_upper c) eqn:E; [|done].
  unfold is_upper in E. apply andb_prop in E as [E1 E2].
  apply Nat.leb_le in E1, E2. unfold code in *.
  rewrite nat_ascii_embedding by lia.
  transitivity true; [|symmetry]; apply Nat.ltb_lt; lia.
Qed.

Lemma ascii_titles_lower (menu_items : list dict) (it : dict) (t : string) :
  ascii_titles menu_items = true -> it ∈ menu_items ->
  title_lower it = Ok t -> isascii t = true.
Proof.
  intros Ha Hin Ht. unfold ascii_titles in Ha.
  rewrite forallb_forall in Ha. specialize (Ha it).
  rewrite <- list_elem_of_In in Ha. specialize (Ha Hin).
  unfold title_lower, dict_get_default in Ht.
  destruct (dict_get it "title") as [[]|]; try done.
  - injection Ht as <-. by rewrite isascii_lower.
  - by injection Ht as <-.
Qed.

(** X11: when the titles of the menu and the completed actions are ASCII
    text, a candidate that the filter lets through overlaps no completed
    action: lower-cased, its title differs from the completed entry, neither
    contains the other, and no keyword of the stem table occurs in the title
    while its stem occurs in the entry. *)
Theorem survivors_overlap_nothing (menu_items : list dict)
    (completed : list string) (out : list dict) (it : dict) (c : string) :
  ascii_titles menu_items = true -> forallb isascii completed = true ->
  _filter_completed_actions menu_items completed = Ok out ->
  it ∈ out -> it ∉ progression_actions -> c ∈ completed ->
  exists t,
    title_lower it = Ok t /\ isascii t = true /\ isascii (lower c) = true /\
    t <> lower c /\
    str_in t (lower c) = false /\
    str_in (lower c) t = false /\
    forall kw, kw ∈ duplicate_keywords ->
      str_in (fst kw) t && str_in (snd kw) (lower c) = false.
Proof.
  intros Hat Hac H Hit Hnp Hc.
  assert (isascii (lower c) = true) as Hlc.
  { rewrite isascii_lower. rewrite forallb_forall in Hac. apply Hac.
    by apply list_elem_of_In. }
  apply filter_completed_actions_shape in H as (f & Hf & _ & ->);
    [|by intros ->; apply elem_of_nil in Hc].
  apply elem_of_take in Hit as (i & Hit & _).
  apply list_elem_of_lookup_2, elem_of_app in Hit as [Hit | Hit].
  - destruct (keep_new_survivors _ _ _ _ Hf Hit) as (t & Ht & Hd).
    exists t. split; [done|].
    split; [by eapply ascii_titles_lower;
              [| eapply elem_of_sublist; [done | by eapply keep_new_sublist] |]|].
    split; [done|].
    pose proof (existsb_false_elem _ _ _ Hd Hc) as Hm.
    unfold matches_completed in Hm.
    apply orb_false_elim in Hm as [Hm Hkw].
    apply orb_false_elim in Hm as [Hm Hin2].
    apply orb_false_elim in Hm as [Heq Hin1].
    split_and!; try done.
    + by apply String.eqb_neq.
    + intros kw Hkwin. by apply (existsb_false_elem _ _ _ Hkw).
  - exfalso. apply Hnp. unfold backstop in Hit.
    destruct (_ <? _); [|by apply elem_of_nil in Hit].
    eapply elem_of_sublist; [done | apply progression_sublist].
Qed.

Lemma survivors_overlap_nothing_witness :
  exists t,
    title_lower (untitled "Book Kickoff") = Ok t /\
    isascii t = true /\ isascii (lower "Analyzed market trends") = true /\
    t <> lower "Analyzed market trends" /\
    str_in t (lower "Analyzed market trends") = false /\
    str_in (lower "Analyzed market trends") t = false /\
    forall kw, kw ∈ duplicate_keywords ->
      str_in (fst kw) t && str_in (snd kw) (lower "Analyzed market trends")
      = false.
Proof.
  apply (survivors_overlap_nothing
           [untitled "Analyze Competitors"; untitled "Book Kickoff"]
           ["Analyzed market trends"]
           (untitled "Book Kickoff" :: progression_actions)).
  - vm_compute. reflexivity.
  - vm_compute. reflexivity.
  - vm_compute. reflexivity.
  - apply elem_of_cons. by left.
  - unfold progression_actions. rewrite !elem_of_cons.
    intros [H | [H | [H | H]]]; try discriminate H. by apply elem_of_nil in H.
  - apply list_elem_of_singleton. reflexivity.
Defined.

Lemma startswith_empty (s : string) : startswith EmptyString s = true.
Proof. by destruct s. Qed.

Lemma str_in_empty (s : string) : str_in EmptyString s = true.
Proof. destruct s; reflexivity. Qed.

Lemma keep_new_all_duplicates (menu_items : list dict) (completed : list string) :
  (forall t, is_duplicate t completed = true) ->
  forall f, keep_new menu_items completed = Ok f -> f = [].
Proof.
  intros Hdup. induction menu_items as [|it rest IH]; intros f H;
    cbn [keep_new] in H.
  - by injection H as <-.
  - destruct (title_lower it) as [t|]; [|done]. cbn [mbind result_bind] in H.
    destruct (keep_new rest completed) as [f'|]; [|done].
    cbn [mbind result_bind] in H. rewrite Hdup in H.
    injection H as <-. by apply IH.
Qed.

(** X12: an empty string among the completed actions removes every candidate:
    the filter then returns only the progression actions that the completed
    actions do not contain, whatever the candidates are. *)
Theorem empty_completed_entry_removes_all (menu_items : list dict)
    (completed : list string) (out : list dict) :
  EmptyString ∈ completed ->
  _filter_completed_actions menu_items completed = Ok out ->
  out = _get_progression_actions completed /\
  length out <= 3 /\
  forall it, it ∈ out -> it ∈ progression_actions.
Proof.
  intros He H.
  apply filter_completed_actions_shape in H as (f & Hf & _ & ->);
    [|by intros ->; apply elem_of_nil in He].
  assert (f = []) as ->.
  { eapply keep_new_all_duplicates; [|exact Hf]. intros t.
    apply existsb_exists. exists EmptyString.
    split; [by apply list_elem_of_In|].
    unfold matches_completed. cbn [lower]. rewrite str_in_empty.
    by rewrite !orb_true_r. }
  unfold backstop. cbn [length app]. change (0 <? 2) with true. cbv iota.
  pose proof (sublist_length _ _ (progression_sublist completed)) as Hlen.
  change (length progression_actions) with 3 in Hlen.
  assert (take 5 (_get_progression_actions completed)
          = _get_progression_actions completed) as -> by (apply take_ge; lia).
  split_and!; [done | done |].
  intros it Hit. eapply elem_of_sublist; [done | apply progression_sublist].
Qed.

Lemma empty_completed_entry_removes_all_witness :
  _filter_completed_actions six_candidates [EmptyString] = Ok progression_actions /\
  progression_actions = _get_progression_actions [EmptyString].
Proof.
  assert (_filter_completed_actions six_candidates [EmptyString]
          = Ok progression_actions) as H by (vm_compute; reflexivity).
  split; [exact H|].
  apply (empty_completed_entry_removes_all six_candidates [EmptyString]
           progression_actions).
  - apply list_elem_of_singleton. reflexivity.
  - exact H.
Defined.

(** ** More on [generate_menu] *)

(** [generate_menu] returns the fallback menu, or the filtered validated
    candidates of a list the model sent. *)
Lemma generate_menu_cases self role context content node_title completed net :
  fst (generate_menu self role context content node_title completed net)
  = _generate_fallback_menu role context completed \/
  exists l menu,
    extract_json (response_text net) = Ok (JList l) /\
    _filter_completed_actions (_validate_menu_items l) completed = Ok menu /\
    fst (generate_menu self role context content node_title completed net)
    = Ok menu.
Proof.
  unfold generate_menu.
  destruct (generate_json_response _ _ _ _ _) as [r self'] eqn:E.
  pose proof (generate_json_response_returns self
    (menu_user_prompt role context content node_title completed)
    (Some (menu_system_prompt role)) "default" net) as H.
  rewrite E in H. cbn [fst] in H. subst r. cbn [fst].
  destruct (extract_json (response_text net)) as [v|e]; cbn [mbind result_bind];
    [|by left].
  unfold menu_of_response.
  destruct v as [| | | |s|l|d]; cbn [contains_error mbind result_bind];
    try (by left).
  - left. destruct (str_in "error" s);
      by destruct (_generate_fallback_menu _ _ _).
  - destruct (existsb _ l).
    + left. by destruct (_generate_fallback_menu _ _ _).
    + destruct (_filter_completed_actions _ _) as [menu|e] eqn:Ef; [|by left].
      right. by exists l, menu.
  - left. destruct (dict_has d "error");
      by destruct (_generate_fallback_menu _ _ _).
Qed.

(** What [generate_menu] returns when the model sent a list. *)
Lemma generate_menu_list self role context content node_title completed net l :
  extract_json (response_text net) = Ok (JList l) ->
  fst (generate_menu self role context content node_title completed net)
  = match (if existsb is_error_string l
           then _generate_fallback_menu role context completed
           else _filter_completed_actions (_validate_menu_items l) completed) with
    | Ok menu => Ok menu
    | Raise _ => _generate_fallback_menu role context completed
    end.
Proof.
  intros Hl. unfold generate_menu.
  destruct (generate_json_response _ _ _ _ _) as [r self'] eqn:E.
  pose proof (generate_json_response_returns self
    (menu_user_prompt role context content node_title completed)
    (Some (menu_system_prompt role)) "default" net) as H.
  rewrite E in H. cbn [fst] in H. subst r. cbn [fst]. rewrite Hl.
  cbn [mbind result_bind]. unfold menu_of_response.
  cbn [contains_error mbind result_bind].
  change (fun x : json => match x with
                          | JStr s => String.eqb s "error"
                          | _ => false
                          end) with is_error_string.
  reflexivity.
Qed.

Lemma fallback_menu_Ok role context completed :
  exists menu, _generate_fallback_menu role context completed = Ok menu.
Proof.
  destruct (generate_fallback_menu_bounds role context completed)
    as (menu & H & _). by exists menu.
Qed.

(** X13: the fallback menu always exists: it is a subsequence of the five base
    actions followed by the progression catalogue, has at most five items,
    each with the five keys and a non-empty title, and is the five base
    actions themselves when no action is completed. *)
Theorem fallback_menu_shape (role context : string) (completed : list string) :
  exists menu,
    _generate_fallback_menu role context completed = Ok menu /\
    sublist menu (base_actions role context ++ progression_actions)%list /\
    length menu <= 5 /\
    Forall canonical menu /\ Forall nonempty_title menu /\
    (completed = [] -> menu = base_actions role context).
Proof.
  destruct (generate_fallback_menu_bounds role context completed)
    as (menu & H & Hlen & Hne).
  exists menu. unfold _generate_fallback_menu in *.
  assert (sublist menu (base_actions role context ++ progression_actions)%list)
    as Hsub.
  { destruct completed as [|c0 cs].
    - injection H as <-. by apply sublist_inserts_r.
    - apply filter_completed_actions_shape in H as (f & _ & Hf & ->); [|done].
      etrans; [apply sublist_take|]. apply sublist_app; [done|].
      unfold backstop. destruct (_ <? _);
        [apply progression_sublist | apply sublist_nil_l]. }
  split_and!; try done.
  - rewrite Forall_forall. intros it Hit.
    eapply elem_of_sublist in Hit; [|exact Hsub].
    apply elem_of_app in Hit as [Hit | Hit].
    + pose proof (base_actions_canonical role context) as Hb.
      rewrite Forall_forall in Hb. by apply Hb.
    + pose proof progression_actions_canonical as Hp.
      rewrite Forall_forall in Hp. by apply Hp.
  - intros ->. by injection H as <-.
Qed.


Lemma keep_new_raises (menu_items : list dict) (completed : list string)
    (it : dict) :
  it ∈ menu_items -> (forall t, title_lower it <> Ok t) ->
  forall f, keep_new menu_items completed <> Ok f.
Proof.
  induction menu_items as [|x rest IH]; intros Hin Hbad f H.
  - by apply elem_of_nil in Hin.
  - cbn [keep_new] in H.
    destruct (title_lower x) as [t|] eqn:Ex; [|done].
    cbn [mbind result_bind] in H.
    destruct (keep_new rest completed) as [f'|] eqn:Ef; [|done].
    apply elem_of_cons in Hin as [-> | Hin].
    + by apply (Hbad t).
    + by apply (IH Hin Hbad f').
Qed.

(** X14: [generate_menu] never raises: it always returns a menu, and every
    item of the menu has exactly the five keys title, prompt, tools, alt and
    icon, in this order. *)
Theorem generate_menu_returns_menu (self : OllamaClient)
    (role context content node_title : string) (completed : list string)
    (net : exchange) :
  exists menu,
    fst (generate_menu self role context content node_title completed net)
    = Ok menu /\
    Forall canonical menu.
Proof.
  destruct (generate_menu_cases self role context content node_title
              completed net) as [-> | (l & menu & _ & Hf & ->)].
  - destruct (fallback_menu_Ok role context completed) as [menu Hm].
    exists menu. split; [done|].
    unfold _generate_fallback_menu in Hm.
    rewrite Forall_forall. intros it Hit.
    destruct (filter_completed_actions_subset _ _ _ _ Hm Hit) as [Hb | Hp].
    + pose proof (base_actions_canonical role context) as H.
      rewrite Forall_forall in H. by apply H.
    + pose proof progression_actions_canonical as H.
      rewrite Forall_forall in H. by apply H.
  - exists menu. split; [done|].
    rewrite Forall_forall. intros it Hit.
    destruct (filter_completed_actions_subset _ _ _ _ Hf Hit) as [Hb | Hp].
    + pose proof (validate_menu_items_canonical l) as H.
      rewrite Forall_forall in H. by apply H.
    + pose proof progression_actions_canonical as H.
      rewrite Forall_forall in H. by apply H.
Qed.

(** X15: when at least one action is completed, the menu [generate_menu]
    returns has at most five items, on the model's list and on the fallback
    alike. *)
Theorem generate_menu_at_most_five (self : OllamaClient)
    (role context content node_title : string) (completed : list string)
    (net : exchange) (menu : list dict) :
  completed <> [] ->
  fst (generate_menu self role context content node_title completed net)
  = Ok menu ->
  length menu <= 5.
Proof.
  intros Hc.
  destruct (generate_menu_cases self role context content node_title
              completed net) as [-> | (l & menu' & _ & Hf & ->)].
  - intros H. unfold _generate_fallback_menu in H.
    by eapply filter_completed_actions_length.
  - intros [= <-]. by eapply filter_completed_actions_length.
Qed.

Lemma generate_menu_at_most_five_witness :
  length (take 5 six_candidates) <= 5.
Proof.
  apply (generate_menu_at_most_five new_client "analyst" "product launch"
           EmptyString "Start" ["Kickoff held"] (Ok six_candidates_reply)).
  - done.
  - vm_compute. reflexivity.
Defined.

(** X16: one candidate whose title is not a string costs the whole list: when
    the model's list holds a dict with such a title and at least one action
    is completed, [generate_menu] returns the fallback menu. *)
Theorem generate_menu_bad_title (self : OllamaClient)
    (role context content node_title : string) (completed : list string)
    (net : exchange) (l : list json) (candidate : json) :
  extract_json (response_text net) = Ok (JList l) ->
  candidate ∈ l -> bad_title candidate -> completed <> [] ->
  fst (generate_menu self role context content node_title completed net)
  = _generate_fallback_menu role context completed.
Proof.
  intros Hl Hin (d & v & -> & Hv & Hns) Hc.
  rewrite (generate_menu_list _ _ _ _ _ _ _ _ Hl).
  destruct (fallback_menu_Ok role context completed) as [fb Hfb].
  destruct (existsb is_error_string l); [by rewrite Hfb|].
  destruct (_filter_completed_actions _ _) as [menu|e] eqn:Ef; [|done].
  exfalso.
  apply filter_completed_actions_shape in Ef as (f & Hf & _); [|done].
  eapply (keep_new_raises _ _ (validated_item d)); [| |exact Hf].
  - rewrite validate_menu_items_map. apply list_elem_of_fmap.
    exists d. split; [done|]. apply elem_of_titled_dicts. split; [done|].
    unfold dict_has. by rewrite Hv.
  - intros t. unfold title_lower, dict_get_default.
    assert (dict_get (validated_item d) "title" = Some v) as ->.
    { rewrite <- Hv. apply validated_item_title. unfold dict_has.
      by rewrite Hv. }
    destruct v; try done. by specialize (Hns s).
Qed.

Lemma generate_menu_bad_title_witness :
  fst (generate_menu new_client "analyst" "product launch" EmptyString "Start"
         ["Kickoff held"]
         (Ok ("[" ++ titled_object "Draft Charter" ++ ", {" ++ dq ++ "title"
                  ++ dq ++ ": 7}]")))
  = _generate_fallback_menu "analyst" "product launch" ["Kickoff held"].
Proof.
  apply (generate_menu_bad_title new_client "analyst" "product launch"
           EmptyString "Start" ["Kickoff held"] _
           [JDict [("title", JStr "Draft Charter")];
            JDict [("title", JInt 7)]]
           (JDict [("title", JInt 7)])).
  - vm_compute. reflexivity.
  - apply elem_of_cons. right. apply elem_of_cons. by left.
  - exists [("title", JInt 7)], (JInt 7). split_and!; done.
  - done.
Defined.

(** X17: a list that holds the string [error] is thrown away: when the model's
    list has the string [error] among its elements, [generate_menu] returns
    the fallback menu, whatever else the list holds. *)
Theorem generate_menu_error_element (self : OllamaClient)
    (role context content node_title : string) (completed : list string)
    (net : exchange) (l : list json) :
  extract_json (response_text net) = Ok (JList l) ->
  JStr "error" ∈ l ->
  fst (generate_menu self role context content node_title completed net)
  = _generate_fallback_menu role context completed.
Proof.
  intros Hl Hin. rewrite (generate_menu_list _ _ _ _ _ _ _ _ Hl).
  assert (existsb is_error_string l = true) as ->.
  { apply existsb_exists. exists (JStr "error").
    split; [by apply list_elem_of_In | reflexivity]. }
  by destruct (_generate_fallback_menu role context completed).
Qed.

Lemma generate_menu_error_element_witness :
  fst (generate_menu new_client "analyst" "product launch" EmptyString "Start"
         []
         (Ok ("[" ++ titled_object "Draft Charter" ++ ", " ++ dq ++ "error"
                  ++ dq ++ "]")))
  = Ok (base_actions "analyst" "product launch").
Proof.
  apply (generate_menu_error_element new_client "analyst" "product launch"
           EmptyString "Start" [] _
           [JDict [("title", JStr "Draft Charter")]; JStr "error"]).
  - vm_compute. reflexivity.
  - apply elem_of_cons. right. apply elem_of_cons. by left.
Defined.



(** ** The sessions of the menu generator *)

Lemma generate_json_response_client self prompt sp sid net :
  snd (generate_json_response self prompt sp sid net)
  = snd (generate_response self prompt (Some (json_system sp)) sid net).
Proof.
  unfold generate_json_response. fold (json_system sp).
  by destruct (generate_response _ _ _ _ _).
Qed.

Lemma generate_menu_client self role context content node_title completed net :
  snd (generate_menu self role context content node_title completed net)
  = snd (generate_response self
           (menu_user_prompt role context content node_title completed)
           (Some (json_system (Some (menu_system_prompt role))))
           "default" net).
Proof.
  unfold generate_menu. rewrite <- generate_json_response_client.
  by destruct (generate_json_response _ _ _ _ _).
Qed.

Lemma generate_next_actions_client self role previous_result net :
  snd (_generate_next_actions self role previous_result net)
  = snd (generate_response self (next_actions_user_prompt role previous_result)
           (Some (json_system (Some next_actions_system_prompt)))
           "default" net).
Proof.
  unfold _generate_next_actions. rewrite <- generate_json_response_client.
  by destruct (generate_json_response _ _ _ _ _).
Qed.

Lemma execute_action_client self action_id context user_input net net2 :
  snd (execute_action self action_id context user_input net net2)
  = snd (generate_response
           (snd (generate_response self (primary_prompt context user_input)
                   (Some (primary_system context)) "default" net))
           (secondary_prompt context net)
           (Some (json_system (Some next_actions_system_prompt)))
           "default" net2).
Proof.
  unfold execute_action. fold (primary_prompt context user_input).
  fold (primary_system context).
  pose proof (generate_response_returns self (primary_prompt context user_input)
                (Some (primary_system context)) "default" net) as Hr.
  destruct (generate_response self _ _ _ net) as [r self1].
  cbn [fst snd] in *. subst r. unfold secondary_prompt.
  rewrite <- generate_next_actions_client.
  by destruct (_generate_next_actions _ _ _ _).
Qed.

Lemma truthy_append (a b : string) :
  a <> EmptyString -> truthy (Some (a ++ b)) = true.
Proof. by destruct a. Qed.

Lemma primary_system_truthy context : truthy (Some (primary_system context)) = true.
Proof.
  unfold primary_system, execute_system_prompt. by apply truthy_append.
Qed.

Lemma json_system_truthy sp : truthy (Some (json_system sp)) = true.
Proof. unfold json_system. by destruct (truthy sp). Qed.

(** After a call with a non-empty system prompt the session starts with a
    system message. *)
Lemma system_after_call self prompt sp sid net :
  truthy (Some sp) = true ->
  lacks_system (history (snd (generate_response self prompt (Some sp) sid net)) sid)
  = false.
Proof.
  intros Hsp. rewrite generate_response_history_of. unfold inserted_system.
  rewrite Hsp. cbn [andb].
  destruct (lacks_system (history self sid)) eqn:E; [done|].
  cbn [app]. destruct (history self sid) as [|m h]; [done|]. exact E.
Qed.

Lemma inserted_system_none sp old :
  lacks_system old = false -> inserted_system sp old = [].
Proof. intros H. unfold inserted_system. by rewrite H, andb_false_r. Qed.

Lemma execute_action_default_session self action_id context user_input net net2 :
  history (snd (execute_action self action_id context user_input net net2))
    "default"
  = (inserted_system (Some (primary_system context)) (history self "default")
     ++ history self "default"
     ++ turn (primary_prompt context user_input) net
     ++ turn (secondary_prompt context net) net2)%list.
Proof.
  rewrite execute_action_client, generate_response_history_of.
  rewrite inserted_system_none
    by (apply system_after_call, primary_system_truthy).
  rewrite generate_response_history_of. cbn [app].
  by rewrite <- !app_assoc.
Qed.

(** X19: what [execute_action] does to the histories: on the default session
    it appends the turn of the primary call and then the turn of the call for
    the next actions, after putting its own system prompt in front when the
    session had none; the JSON instruction of the second call is never
    stored.  No other session changes, nor does the model. *)
Theorem execute_action_history (self : OllamaClient) (action_id : string)
    (context : list (string * string)) (user_input : string)
    (net net2 : exchange) :
  let self' := snd (execute_action self action_id context user_input net net2) in
  let old := history self "default" in
  history self' "default"
  = (inserted_system (Some (primary_system context)) old ++ old
     ++ turn (primary_prompt context user_input) net
     ++ turn (secondary_prompt context net) net2)%list /\
  (forall sid, sid <> "default" ->
     conversation_history self' !! sid = conversation_history self !! sid) /\
  current_model self' = current_model self.
Proof.
  cbn zeta. split_and!; [apply execute_action_default_session | |];
    rewrite execute_action_client.
  - intros sid Hne. rewrite !generate_response_lookup.
    by destruct (decide ("default" = sid)).
  - by rewrite !generate_response_model.
Qed.

(** X20: what [generate_menu] does to the histories: on the default session it
    appends the turn of its one call, after putting the JSON instruction
    followed by its own system prompt in front when the session had no system
    message; no other session changes, nor does the model.  After it, the
    session starts with a system message, so an [execute_action] that follows
    only appends its two turns: its own system prompt is not stored. *)
Theorem generate_menu_history (self : OllamaClient)
    (role context content node_title : string) (completed : list string)
    (net : exchange) (action_id : string) (ctx : list (string * string))
    (user_input : string) (net1 net2 : exchange) :
  let self' :=
    snd (generate_menu self role context content node_title completed net) in
  let old := history self "default" in
  history self' "default"
  = (inserted_system (Some (json_system (Some (menu_system_prompt role)))) old
     ++ old
     ++ turn (menu_user_prompt role context content node_title completed) net)%list /\
  (forall sid, sid <> "default" ->
     conversation_history self' !! sid = conversation_history self !! sid) /\
  current_model self' = current_model self /\
  history (snd (execute_action self' action_id ctx user_input net1 net2)) "default"
  = (history self' "default"
     ++ turn (primary_prompt ctx user_input) net1
     ++ turn (secondary_prompt ctx net1) net2)%list.
Proof.
  cbn zeta. rewrite generate_menu_client. split_and!.
  - apply generate_response_history_of.
  - intros sid Hne. rewrite generate_response_lookup.
    by destruct (decide ("default" = sid)).
  - apply generate_response_model.
  - rewrite execute_action_default_session.
    rewrite inserted_system_none; [done|].
    apply system_after_call, json_system_truthy.
Qed.

(** ** The size of the prompts *)

Lemma str_length_app (a b : string) :
  String.length (a ++ b) = String.length a + String.length b.
Proof.
  induction a as [|c a IH]; [done|].
  change (String c a ++ b) with (String c (a ++ b)).
  cbn [String.length]. by rewrite IH.
Qed.

Lemma str_take_length (n : nat) (s : string) : String.length (str_take n s) <= n.
Proof.
  revert s. induction n as [|n IH]; intros [|c s]; cbn [str_take String.length];
    try lia.
  specialize (IH s). lia.
Qed.

(** X21: the prompts stay within a budget whatever the size of the content
    they quote: the system prompt of [execute_action] has at most 991
    characters besides the role, the prompt for the next actions at most 589,
    and the user prompt of [generate_menu] at most 1367 besides the node
    title, the role, the context and the joined completed actions.  Lengths
    count the characters of the model's strings, which are those of Python's
    on ASCII text. *)
Theorem prompt_budget (role context content node_title parent_content
    previous_result : string) (completed : list string) :
  String.length (execute_system_prompt role parent_content)
    <= 491 + String.length role + 500 /\
  String.length (next_actions_user_prompt role previous_result)
    <= 89 + String.length role + 500 /\
  String.length (menu_user_prompt role context content node_title completed)
    <= 367 + String.length node_title + String.length role
       + String.length context + String.length (join ", " completed) + 1000.
Proof.
  split_and!.
  - unfold execute_system_prompt.
    pose proof (str_take_length 500 parent_content).
    destruct (String.eqb parent_content EmptyString);
      rewrite !str_length_app; cbn [String.length]; lia.
  - unfold next_actions_user_prompt.
    pose proof (str_take_length 500 previous_result).
    rewrite !str_length_app. cbn [String.length]. lia.
  - unfold menu_user_prompt.
    pose proof (str_take_length 1000 content).
    destruct (_ && _); rewrite !str_length_app; unfold dq;
      cbn [String.length]; lia.
Qed.

(** ** The route [/api/generate-menu] *)

(** X22: the route answers with a menu exactly when the body of the request
    decodes to a JSON object.  Otherwise it answers with status 500 and
    leaves the gateway as it is: the detail carries the text of the
    exception of the decoding, or says that the decoded value has no [get].
    For an object, no action is ever completed for [generate_menu],
    whatever [previous_actions] holds: when the exchange with the model
    fails the menu is the five base actions for the role and the context
    of the body (General User and the empty context when they are
    missing), and when the model sends a list without the string [error],
    decoded within the limits of the interpreter, the menu is every
    validated candidate of the list, neither filtered nor cut. *)
Theorem api_generate_menu_never_filters (py_str : json -> string)
    (py : interpreter) (self : OllamaClient) (body : result json)
    (net : exchange) :
  let answer := fst (api_generate_menu py_str self body net) in
  ((exists menu, answer = Ok menu) <-> exists data, body = Ok (JDict data)) /\
  (forall e, body = Raise e ->
     answer = Raise (Exception ("Menu generation failed: " ++ exn_str e)) /\
     snd (api_generate_menu py_str self body net) = self) /\
  (forall v, body = Ok v -> (forall data, v <> JDict data) ->
     answer = Raise (Exception ("Menu generation failed: '" ++ type_name v
                                ++ "' object has no attribute 'get'")) /\
     snd (api_generate_menu py_str self body net) = self) /\
  (forall data e, body = Ok (JDict data) -> net = Raise e ->
     answer
     = Ok (base_actions
             (formatted py_str (dict_get_default data "role" (JStr "General User")))
             (formatted py_str (dict_get_default data "context" (JStr EmptyString))))) /\
  (forall data role context e,
     body = Ok (JDict data) -> net = Raise e ->
     dict_get data "role" = Some (JStr role) ->
     dict_get data "context" = Some (JStr context) ->
     answer = Ok (base_actions role context)) /\
  (forall e, body = Ok (JDict []) -> net = Raise e ->
     answer = Ok (base_actions "General User" EmptyString)) /\
  (forall data reply l, body = Ok (JDict data) -> net = Ok reply ->
     extract_json_in py (response_text net) = Ok (JList l) ->
     JStr "error" ∉ l ->
     answer = Ok (_validate_menu_items l)).
Proof.
  cbn zeta.
  assert (forall data role context,
            role = formatted py_str (dict_get_default data "role" (JStr "General User")) ->
            context = formatted py_str (dict_get_default data "context" (JStr EmptyString)) ->
            fst (api_generate_menu py_str self (Ok (JDict data)) net)
            = match fst (generate_menu self role context EmptyString
                           EmptyString [] net) with
              | Ok menu_items => Ok menu_items
              | Raise e => Raise (http_500 (exn_str e))
              end) as Hroute.
  { intros data role context -> ->. unfold api_generate_menu.
    by destruct (generate_menu self _ _ _ _ _ net) as [r self']. }
  assert (forall data e, net = Raise e ->
            fst (api_generate_menu py_str self (Ok (JDict data)) net)
            = Ok (base_actions
                    (formatted py_str (dict_get_default data "role" (JStr "General User")))
                    (formatted py_str (dict_get_default data "context" (JStr EmptyString)))))
    as Hfail.
  { intros data e ->. rewrite (Hroute data _ _ eq_refl eq_refl).
    by rewrite generate_menu_gateway_failure. }
  split_and!.
  - split.
    + intros [menu H]. destruct body as [[]|e]; try discriminate H.
      by eexists.
    + intros [data ->]. rewrite (Hroute data _ _ eq_refl eq_refl).
      destruct (generate_menu_cases self
                  (formatted py_str (dict_get_default data "role" (JStr "General User")))
                  (formatted py_str (dict_get_default data "context" (JStr EmptyString)))
                  EmptyString EmptyString [] net)
        as [-> | (l & menu & _ & _ & ->)]; by eexists.
  - by intros e ->.
  - intros v -> Hv. destruct v; try done. by destruct (Hv d).
  - intros data e ->. apply Hfail.
  - intros data role context e -> Hnet Hr Hc. rewrite (Hfail data e Hnet).
    unfold dict_get_default. by rewrite Hr, Hc.
  - intros e ->. apply Hfail.
  - intros data reply l -> _ Hl Hne. apply extract_json_in_refines in Hl.
    rewrite (Hroute data _ _ eq_refl eq_refl).
    rewrite (generate_menu_list _ _ _ _ _ _ _ _ Hl).
    assert (existsb is_error_string l = false) as ->; [|done].
    apply not_true_is_false. intros H.
    apply existsb_exists in H as (x & Hx & He). apply Hne.
    destruct x; try done. apply String.eqb_eq in He as ->.
    by apply list_elem_of_In.
Qed.

(** ** The structured call *)




(** X24: [execute_action] reports the model that [set_model] set last,
    whether its calls succeed or fail, and [set_model] changes no history. *)
Theorem set_model_is_reported (self : OllamaClient) (model_name action_id : string)
    (context : list (string * string)) (user_input : string)
    (net net2 : exchange) :
  model_used (fst (execute_action (set_model self model_name) action_id
                     context user_input net net2)) = model_name /\
  conversation_history (set_model self model_name) = conversation_history self /\
  current_model
    (snd (execute_action (set_model self model_name) action_id context
            user_input net net2)) = model_name.
Proof.
  rewrite execute_action_returns. split_and!; try reflexivity.
  rewrite execute_action_client. by rewrite !generate_response_model.
Qed.

(** ** The configuration *)

Lemma dict_get_set_eq (d : dict) (k : string) (v : json) :
  dict_get (dict_set d k v) k = Some v.
Proof.
  induction d as [|[k' v'] d IH]; cbn [dict_set dict_get].
  - by rewrite String.eqb_refl.
  - destruct (String.eqb k k') eqn:E; cbn [dict_get]; rewrite E; [done|].
    exact IH.
Qed.

Lemma dict_get_set_ne (d : dict) (k k' : string) (v : json) :
  k <> k' -> dict_get (dict_set d k v) k' = dict_get d k'.
Proof.
  intros Hne. induction d as [|[k0 v0] d IH]; cbn [dict_set dict_get].
  - by destruct (String.eqb_spec k' k).
  - destruct (String.eqb_spec k k0) as [->|Hk]; cbn [dict_get].
    + by destruct (String.eqb_spec k' k0) as [->|].
    + destruct (String.eqb k' k0); [done | exact IH].
Qed.

Lemma merge_config_fold (default user : dict) :
  _merge_config default user = fold_left merge_step user default.
Proof.
  unfold _merge_config. cbn [merge_value].
  revert default. induction user as [|[k v] user IH]; intros default; [done|].
  cbn [fold_left]. rewrite <- IH. unfold merge_step. cbn [fst snd].
  destruct (dict_get default k) as [[| | | | | |dk]|]; try done.
  destruct v as [| | | | | |uk]; try done.
Qed.

Lemma dict_get_not_key (d : dict) (k : string) :
  k ∉ d.*1 -> dict_get d k = None.
Proof.
  induction d as [|[k' v'] d IH]; [done|]. cbn [fmap list_fmap fst dict_get].
  intros Hk. apply not_elem_of_cons in Hk as [Hne Hk].
  destruct (String.eqb_spec k k'); [done | by apply IH].
Qed.

Lemma merge_fold_lookup (user : list (string * json)) :
  NoDup user.*1 ->
  forall (default : dict) (k : string),
    dict_get (fold_left merge_step user default) k
    = match dict_get user k with
      | None => dict_get default k
      | Some uv =>
          Some match dict_get default k, uv with
               | Some (JDict dk), JDict uk => JDict (_merge_config dk uk)
               | _, _ => uv
               end
      end.
Proof.
  induction user as [|[k0 v0] user IH]; intros Hnd default k; [done|].
  cbn [fmap list_fmap fst] in Hnd. apply NoDup_cons in Hnd as [Hk0 Hnd].
  cbn [fold_left dict_get]. rewrite (IH Hnd).
  destruct (String.eqb_spec k k0) as [->|Hne].
  - rewrite (dict_get_not_key user k0 Hk0). unfold merge_step. cbn [fst snd].
    by rewrite dict_get_set_eq.
  - unfold merge_step at 1 2. cbn [fst snd].
    by rewrite dict_get_set_ne by done.
Qed.

(** X25: what the merge of a user config into the defaults holds under a key
    (the keys of the user config being distinct, as those of a dict are): the
    default's value when the user config has no such key; the merge of the
    two values when both are dicts; and the user's value in every other
    case, so a default dict is lost, with all its keys, when the user config
    puts something that is not a dict in its place. *)
Theorem merge_config_lookup (default user : dict) (k : string) :
  NoDup user.*1 ->
  dict_get (_merge_config default user) k
  = match dict_get user k with
    | None => dict_get default k
    | Some uv =>
        Some match dict_get default k, uv with
             | Some (JDict dk), JDict uk => JDict (_merge_config dk uk)
             | _, _ => uv
             end
    end /\
  (dict_has default k = true -> dict_has (_merge_config default user) k = true) /\
  (forall uv, dict_get user k = Some uv -> (forall uk, uv <> JDict uk) ->
     dict_get (_merge_config default user) k = Some uv).
Proof.
  intros Hnd. rewrite merge_config_fold.
  pose proof (merge_fold_lookup user Hnd default k) as H.
  split_and!; [exact H | |].
  - unfold dict_has. rewrite H.
    destruct (dict_get user k); [done|]. by destruct (dict_get default k).
  - intros uv Hu Hnot. rewrite H, Hu.
    destruct (dict_get default k) as [[| | | | | |dk]|]; try done.
    destruct uv; try done. by specialize (Hnot d).
Qed.

Lemma merge_config_lookup_witness :
  dict_get
    (_merge_config
       [("ollama", JDict [("timeout", JInt 60); ("base_url", JStr "u")]);
        ("ui", JDict [("theme", JStr "dark")])]
       [("ollama", JDict [("timeout", JInt 5)]); ("ui", JStr "none")])
    "ui"
  = Some (JStr "none") /\
  dict_get
    (_merge_config
       [("ollama", JDict [("timeout", JInt 60); ("base_url", JStr "u")]);
        ("ui", JDict [("theme", JStr "dark")])]
       [("ollama", JDict [("timeout", JInt 5)]); ("ui", JStr "none")])
    "ollama"
  = Some (JDict [("timeout", JInt 5); ("base_url", JStr "u")]).
Proof.
  split; [|reflexivity].
  apply (proj2 (proj2 (merge_config_lookup
    [("ollama", JDict [("timeout", JInt 60); ("base_url", JStr "u")]);
     ("ui", JDict [("theme", JStr "dark")])]
    [("ollama", JDict [("timeout", JInt 5)]); ("ui", JStr "none")]
    "ui" ltac:(apply (bool_decide_unpack _); vm_compute; exact I)))).
  - reflexivity.
  - done.
Defined.

Lemma lookup_assign_keys (keys : list string) :
  forall (config config' value : json),
    assign_keys config keys value = Some config' ->
    lookup_keys config' keys = Some value.
Proof.
  induction keys as [|k rest IH]; intros config config' value H;
    cbn [assign_keys] in H.
  - by injection H as <-.
  - destruct config as [| | | | | |d]; try done.
    destruct (assign_keys _ rest value) as [v|] eqn:E; [|done].
    injection H as <-. cbn [lookup_keys]. rewrite dict_get_set_eq.
    by eapply IH.
Qed.

Lemma split_dots_cons (path : string) :
  exists key rest, split_dots path = key :: rest.
Proof.
  induction path as [|c path (key & rest & IH)]; cbn [split_dots];
    [by eexists _, _|].
  destruct (code c =? 46); [by eexists _, _|]. rewrite IH. by eexists _, _.
Qed.

(** X26: [set] then [get]: when the assignment goes through, [get] of the
    same path returns the value that was set, the answer of [set] is what
    saving returned (so the config is changed even when saving failed), and
    [get] of a path with another first key returns what it did before; when
    the assignment raises, the answer is [False] and the config is as
    before. *)
Theorem config_set_then_get (config : dict) (path : string) (value : json)
    (saved : bool) (dflt : json) :
  (config_get (snd (config_set config path value saved)) path dflt = value /\
   fst (config_set config path value saved) = saved /\
   forall path' dflt',
     hd EmptyString (split_dots path') <> hd EmptyString (split_dots path) ->
     config_get (snd (config_set config path value saved)) path' dflt'
     = config_get config path' dflt') \/
  (assign_keys (JDict config) (split_dots path) value = None /\
   config_set config path value saved = (false, config)).
Proof.
  unfold config_set.
  destruct (assign_keys (JDict config) (split_dots path) value)
    as [config'|] eqn:E; [|by right].
  left. pose proof (lookup_assign_keys _ _ _ _ E) as Hl.
  destruct (split_dots_cons path) as (key & rest & Hp). rewrite Hp in *.
  cbn [assign_keys] in E.
  destruct (assign_keys _ rest value) as [v|] eqn:Ev; [|done].
  injection E as <-. cbn [fst snd]. split_and!.
  - unfold config_get. by rewrite Hp, Hl.
  - done.
  - intros path' dflt' Hne. unfold config_get.
    destruct (split_dots_cons path') as (key' & rest' & Hp'). rewrite Hp' in *.
    cbn [hd] in Hne. cbn [lookup_keys].
    by rewrite dict_get_set_ne by done.
Qed.

Lemma assign_keys_resolved (keys : list string) :
  forall (config v value : json),
    keys <> [] ->
    lookup_keys config keys = Some v ->
    exists config', assign_keys config keys value = Some config'.
Proof.
  induction keys as [|k rest IH]; intros config v value Hk H; [done|].
  cbn [lookup_keys] in H. destruct config as [| | | | | |d]; try done.
  destruct (dict_get d k) as [child|] eqn:E; [|done].
  cbn [assign_keys]. unfold dict_get_default. rewrite E.
  destruct rest as [|k2 rest].
  - cbn [assign_keys]. by eexists.
  - destruct (IH child v value ltac:(done) H) as [c' ->]. by eexists.
Qed.

Lemma config_set_resolved (config : dict) (path : string) (v value dflt : json)
    (saved : bool) :
  lookup_keys (JDict config) (split_dots path) = Some v ->
  config_get (snd (config_set config path value saved)) path dflt = value.
Proof.
  intros Hl.
  destruct (split_dots_cons path) as (key & rest & Hp).
  destruct (assign_keys_resolved (split_dots path) (JDict config) v value
              ltac:(by rewrite Hp) Hl) as [c' Hc].
  pose proof (lookup_assign_keys _ _ _ _ Hc) as Hl'.
  unfold config_set. rewrite Hc.
  rewrite Hp in Hc. cbn [assign_keys] in Hc.
  destruct (assign_keys _ rest value); [|done]. injection Hc as <-.
  cbn [snd]. unfold config_get. by rewrite Hl'.
Qed.

(** X27: [update_hardware_config] resolves the type [auto]: when the
    configured GPU type is the string [auto] it becomes the detected one,
    whether or not the file could be saved, and otherwise the config is left
    as it is; so afterwards the type is [auto] only if that is what was
    detected. *)
Theorem update_hardware_config_resolves (config : dict) (detected : string)
    (saved : bool) :
  let config' := update_hardware_config config detected saved in
  (config_get config "hardware.gpu_type" JNull = JStr "auto" ->
   config_get config' "hardware.gpu_type" JNull = JStr detected) /\
  (config_get config "hardware.gpu_type" JNull <> JStr "auto" ->
   config' = config) /\
  (config_get config' "hardware.gpu_type" JNull = JStr "auto" ->
   detected = "auto").
Proof.
  cbn zeta.
  assert (config_get config "hardware.gpu_type" JNull = JStr "auto" ->
          config_get (update_hardware_config config detected saved)
            "hardware.gpu_type" JNull = JStr detected) as Hauto.
  { intros Ha. unfold update_hardware_config. rewrite Ha.
    change (String.eqb "auto" "auto") with true. cbv iota.
    unfold config_get in Ha.
    destruct (lookup_keys (JDict config) (split_dots "hardware.gpu_type"))
      as [v|] eqn:El; [|done].
    by eapply config_set_resolved. }
  assert (config_get config "hardware.gpu_type" JNull <> JStr "auto" ->
          update_hardware_config config detected saved = config) as Hother.
  { intros Hn. unfold update_hardware_config.
    destruct (config_get config "hardware.gpu_type" JNull) as [| | | |t| |];
      try done.
    by destruct (String.eqb_spec t "auto") as [->|]. }
  split_and!; [done | done |].
  intros H.
  destruct (config_get config "hardware.gpu_type" JNull) as [| | | |t| |] eqn:E;
    try (rewrite Hother in H by done; rewrite E in H; discriminate H).
  destruct (String.eqb_spec t "auto") as [->|Hne].
  - rewrite (Hauto eq_refl) in H. by injection H.
  - rewrite Hother in H by congruence. rewrite E in H. congruence.
Qed.
